(** * GameSetup: layered configuration resolution

    A shallow embedding of the [GameSetup] component of [testing.ts]: the
    launch configuration supplied by the game host ([_clientConfig]), the
    setup result returned by the RGS server ([_rgsConfig]) and the editor
    defaults ([_clientDefaults]), together with the accessors, the listener
    list, the setup-received handler and the derived display strings.

    Conventions of the embedding:
    - a field that the source declares nullable or optional, or that it tests
      for presence before use, is an [option]; [None] stands for both [null]
      and [undefined] unless a function tells them apart;
    - JavaScript numbers that the component handles are identifiers, counts
      and RTP values in hundredths of a percent: they are integers ([Z]);
      the quotient [low / 100] is an exact rational ([Q]);
    - strings are ASCII strings;
    - a member that can raise a [TypeError] returns an [Outcome]; the members
      that also log, notify or mutate the component run in the monad [M],
      which threads the component and the trace of events and keeps both
      when an exception is raised. *)

From Stdlib Require Import ZArith QArith List String Ascii Bool Lia.
From Stdlib Require Import Sorting.Permutation Sorting.Sorted.
From Stdlib Require Import DecimalString.
Import ListNotations.

Local Open Scope string_scope.
Local Open Scope Z_scope.
Local Open Scope list_scope.

(** ** JavaScript values *)

(** A variable that may hold [undefined] or [null] besides a value of its
    type ([let low: number = null], [rtps[0]] of an empty array, the first
    entry of the round history). *)
Inductive JsVal (N : Type) : Type :=
| Undefined
| Null
| Val (n : N).
Arguments Undefined {N}.
Arguments Null {N}.
Arguments Val {N} n.

(** The result of a string-returning member: [null], [undefined] or a string. *)
Inductive JsString : Type :=
| StrNull
| StrUndefined
| Str (s : string).

Inductive JsError : Type :=
| TypeError (msg : string).

Inductive Outcome (A : Type) : Type :=
| Ret (a : A)
| Throw (e : JsError).
Arguments Ret {A} a.
Arguments Throw {A} e.

(** Truthiness of a [string | null] value: present and not the empty string. *)
Definition truthy_string (s : option string) : bool :=
  match s with
  | Some EmptyString => false
  | Some _ => true
  | None => false
  end.

(** Truthiness of a number: present, and not zero. *)
Definition truthy_num (n : JsVal Z) : bool :=
  match n with
  | Val z => negb (z =? 0)
  | _ => false
  end.

Definition lower_ascii (c : ascii) : ascii :=
  let n := nat_of_ascii c in
  if (Nat.leb 65 n && Nat.leb n 90)%bool then ascii_of_nat (n + 32) else c.

(** [String.prototype.toLowerCase] on ASCII strings. *)
Fixpoint toLowerCase (s : string) : string :=
  match s with
  | EmptyString => EmptyString
  | String c r => String (lower_ascii c) (toLowerCase r)
  end.

(** [haystack] contains [needle]: the test of a regular expression that is a
    plain word, such as [/safari/]. *)
Fixpoint includes (needle haystack : string) : bool :=
  if prefix needle haystack then true
  else match haystack with
       | EmptyString => false
       | String _ r => includes needle r
       end.

(** Template-literal rendering of an integer. *)
Definition Z_to_string (z : Z) : string :=
  NilZero.string_of_int (Z.to_int z).

(** ** Enumerations *)

Inductive AutoSpinType : Type := AutoSpin_None | AutoSpin_Standard | AutoSpin_Extended.
Inductive ClientType : Type := Desktop | Mobile.
Inductive GameType : Type := Social | Wager.
Inductive WagerDisplay : Type := Cash | Credits | Toggle.

(** The members of [DisplayKey] that [ShouldDisplay] switches on; the
    enumeration itself is imported by the source, and [OtherKey] stands for
    every member the switch has no case for. *)
Inductive DisplayKey : Type :=
| Key_AutoSpin | Key_Balance | Key_Bet | Key_Help | Key_Language | Key_Lobby
| Key_Recall | Key_RTP | Key_ServerTime | Key_SessionTime | Key_Settings
| Key_Sound | Key_Turbo | Key_Social | Key_ForWager | Key_GameInfo | Key_Demo
| Key_QuickStop | Key_KeyboardControls
| OtherKey (n : nat).

(** ** Configuration records *)

Record SubClient : Type := { servicePath : option string }.
Record ISubClientConfig : Type := { client : option SubClient }.

(** Configuration data supplied by the game host. *)
Record IClientConfig : Type := {
  gameId : string;
  platformId : string;
  serverHost : string;
  serverPort : Z;
  rgsVersion : string;
  operatorId : option string;
  gameType : string;
  clientType : option string;
  locale : option string;
  currencyCode : option string;
  userId : string;
  userToken : string;
  use12HourClock : bool;
  version : string;
  recall : option Z;
  jurisdiction : string;
  lobbyUrl : option string;
  rgsUser : option string;
  rgsSession : option string;
  platformRecallRoundId : option string;
  clientconfig : option ISubClientConfig
}.

Record AutoPlayConfig : Type := {
  ap_type : string;
  ap_options : list Z;
  ap_max : Z
}.

Record RecallOptions : Type := {
  ro_enabled : bool;
  ro_history : Z
}.

Record DisplayOptions : Type := {
  autoSpin : AutoPlayConfig;
  balance : bool;
  bet : bool;
  gameName : bool;
  help : bool;
  language : bool;
  lobby : bool;
  lobbyExclusion : string;
  do_recall : option RecallOptions;
  rtp_flag : bool;
  serverTime : bool;
  sessionTime : bool;
  do_settings : bool;
  sound : bool;
  turbo : bool
}.

(** The editor defaults; the class implements [IClientConfig] and adds
    [displayOptions]. *)
Record ClientDefaults : Type := {
  cd_gameId : string;
  cd_platformId : string;
  cd_serverHost : string;
  cd_serverPort : Z;
  cd_rgsVersion : string;
  cd_operatorId : string;
  cd_jurisdiction : string;
  cd_gameType : string;
  cd_clientType : string;
  cd_locale : string;
  cd_currencyCode : string;
  cd_use12HourClock : bool;
  cd_userId : string;
  cd_userToken : string;
  cd_version : string;
  displayOptions : DisplayOptions;
  cd_platformRecallRoundId : option string;
  cd_clientconfig : option ISubClientConfig
}.

(** [this._clientConfig = this._clientDefaults]: the defaults object read
    through the [IClientConfig] interface; the optional members the class
    does not declare are [undefined]. *)
Definition asClientConfig (d : ClientDefaults) : IClientConfig := {|
  gameId := cd_gameId d;
  platformId := cd_platformId d;
  serverHost := cd_serverHost d;
  serverPort := cd_serverPort d;
  rgsVersion := cd_rgsVersion d;
  operatorId := Some (cd_operatorId d);
  gameType := cd_gameType d;
  clientType := Some (cd_clientType d);
  locale := Some (cd_locale d);
  currencyCode := Some (cd_currencyCode d);
  userId := cd_userId d;
  userToken := cd_userToken d;
  use12HourClock := cd_use12HourClock d;
  version := cd_version d;
  recall := None;
  jurisdiction := cd_jurisdiction d;
  lobbyUrl := None;
  rgsUser := None;
  rgsSession := None;
  platformRecallRoundId := cd_platformRecallRoundId d;
  clientconfig := cd_clientconfig d
|}.

(** ** Setup result returned by the RGS server *)

Record IPlatformBetOption : Type := {
  bo_list : list Z;
  defaultMult : Z
}.

(** The [platformBetOption] member: absent, still the encoded string, or the
    decoded structure. *)
Inductive BetOptionField : Type :=
| BetOptionAbsent
| BetOptionString (s : string)
| BetOptionValue (v : IPlatformBetOption).

Record IPlayResult : Type := {
  PlaySequenceNumber : Z;
  GamePlayIndex : Z;
  playId : Z
}.

Record IPlayState : Type := {
  playResult : IPlayResult;
  ps_platformBetOption : BetOptionField
}.

Record IDenomConfig : Type := { rtp : option (list Z) }.

(** Bet configurations and default bets are passed through untouched; only
    their identity matters here. *)
Inductive IBetConfig : Type := BetConfig (id : nat).
Inductive IDefaultBet : Type := DefaultBetRef (id : nat).

Record IJuris : Type := {
  autoCompleteDayFreq : Z;
  autoCompleteDayMax : Z;
  timeZone : option string;
  useLocalTimeZone : bool
}.

Record ISettings : Type := {
  s_use12HourClock : option bool;
  uiDisplayOptions : option DisplayOptions;
  juris : option IJuris;
  keyboardEnabled : bool;
  s_lobbyUrl : option string;
  lobbyWindowDepth : option string;
  minimumSpinDelay : Z;
  disableDemo : option bool;
  prizeForceEnabled : bool;
  quickStopEnabled : bool;
  wagerDisplay : string
}.

(** [denomConfigs] and [betConfigs] are objects used as maps; they are kept
    as association lists in the order in which [for ... in] visits the keys. *)
Record ISetupResult : Type := {
  settings : option ISettings;
  denomConfigs : option (list (string * IDenomConfig));
  betConfigs : option (list (string * IBetConfig));
  roundStates : option (list IPlayState);
  previousRoundState : option IPlayState;
  activeDenom : Z;
  defaultBet : option IDefaultBet;
  time : Z;
  rgsTzOffset : Z;
  platformBetOption : BetOptionField;
  sr_version : Z
}.

(** ** The component *)

(** A registered handler is a function object; only its identity is
    observable ([===]), so it is a reference number. *)
Definition Handler : Type := nat.
Definition StateID : Type := nat.

(** An observable string component: its current [Value]. *)
Definition Observable : Type := JsString.

Inductive Event : Type :=
| LogError (msg : string)
| LogInfo (msg : string)
| HandlerInvoked (h : Handler)
| LocalOnChanged
| CompleteState (s : StateID)
| RequestSetup
| RequestRecallSetup.

Record GameSetup : Type := {
  _setupOnState : StateID;
  versionObservable : option Observable;
  rtpDisplayObservable : option Observable;
  autoCompleteObservable : option Observable;
  _clientDefaults : ClientDefaults;
  _localRef : bool;
  _communicatorRef : bool;
  _clientConfig : option IClientConfig;
  _rgsConfig : option ISetupResult;
  _onSetupCompleteHandlers : list Handler;
  CLog_Debug : bool
}.

(** ** Collaborators

    What the component asks of its host and of the services it is wired to:
    the object injected under [window["clientConfig"]], the build flag
    [CC_DEBUG], the user agent and the regular expression deciding an Android
    web view, [JSON.parse] (which either yields the decoded member or raises
    an error with a message), [JSON.stringify] on a play state, and the
    string lookup of the localization component. *)
Class Host : Type := {
  window_clientConfig : option IClientConfig;
  CC_DEBUG : bool;
  userAgent : string;
  chromeWebViewTest : string -> bool;
  JSON_parse : string -> BetOptionField + string;
  JSON_stringify : IPlayState -> string;
  GetStringResource : string -> list string -> string
}.

(** ** Field updates *)

Definition set_clientConfig (c : option IClientConfig) (g : GameSetup) : GameSetup :=
  {| _setupOnState := _setupOnState g;
     versionObservable := versionObservable g;
     rtpDisplayObservable := rtpDisplayObservable g;
     autoCompleteObservable := autoCompleteObservable g;
     _clientDefaults := _clientDefaults g;
     _localRef := _localRef g;
     _communicatorRef := _communicatorRef g;
     _clientConfig := c;
     _rgsConfig := _rgsConfig g;
     _onSetupCompleteHandlers := _onSetupCompleteHandlers g;
     CLog_Debug := CLog_Debug g |}.

Definition set_rgsConfig (r : option ISetupResult) (g : GameSetup) : GameSetup :=
  {| _setupOnState := _setupOnState g;
     versionObservable := versionObservable g;
     rtpDisplayObservable := rtpDisplayObservable g;
     autoCompleteObservable := autoCompleteObservable g;
     _clientDefaults := _clientDefaults g;
     _localRef := _localRef g;
     _communicatorRef := _communicatorRef g;
     _clientConfig := _clientConfig g;
     _rgsConfig := r;
     _onSetupCompleteHandlers := _onSetupCompleteHandlers g;
     CLog_Debug := CLog_Debug g |}.

Definition set_handlers (hs : list Handler) (g : GameSetup) : GameSetup :=
  {| _setupOnState := _setupOnState g;
     versionObservable := versionObservable g;
     rtpDisplayObservable := rtpDisplayObservable g;
     autoCompleteObservable := autoCompleteObservable g;
     _clientDefaults := _clientDefaults g;
     _localRef := _localRef g;
     _communicatorRef := _communicatorRef g;
     _clientConfig := _clientConfig g;
     _rgsConfig := _rgsConfig g;
     _onSetupCompleteHandlers := hs;
     CLog_Debug := CLog_Debug g |}.

Definition set_versionObservable (o : option Observable) (g : GameSetup) : GameSetup :=
  {| _setupOnState := _setupOnState g;
     versionObservable := o;
     rtpDisplayObservable := rtpDisplayObservable g;
     autoCompleteObservable := autoCompleteObservable g;
     _clientDefaults := _clientDefaults g;
     _localRef := _localRef g;
     _communicatorRef := _communicatorRef g;
     _clientConfig := _clientConfig g;
     _rgsConfig := _rgsConfig g;
     _onSetupCompleteHandlers := _onSetupCompleteHandlers g;
     CLog_Debug := CLog_Debug g |}.

Definition set_rtpDisplayObservable (o : option Observable) (g : GameSetup) : GameSetup :=
  {| _setupOnState := _setupOnState g;
     versionObservable := versionObservable g;
     rtpDisplayObservable := o;
     autoCompleteObservable := autoCompleteObservable g;
     _clientDefaults := _clientDefaults g;
     _localRef := _localRef g;
     _communicatorRef := _communicatorRef g;
     _clientConfig := _clientConfig g;
     _rgsConfig := _rgsConfig g;
     _onSetupCompleteHandlers := _onSetupCompleteHandlers g;
     CLog_Debug := CLog_Debug g |}.

Definition set_autoCompleteObservable (o : option Observable) (g : GameSetup) : GameSetup :=
  {| _setupOnState := _setupOnState g;
     versionObservable := versionObservable g;
     rtpDisplayObservable := rtpDisplayObservable g;
     autoCompleteObservable := o;
     _clientDefaults := _clientDefaults g;
     _localRef := _localRef g;
     _communicatorRef := _communicatorRef g;
     _clientConfig := _clientConfig g;
     _rgsConfig := _rgsConfig g;
     _onSetupCompleteHandlers := _onSetupCompleteHandlers g;
     CLog_Debug := CLog_Debug g |}.

Definition set_CLog_Debug (b : bool) (g : GameSetup) : GameSetup :=
  {| _setupOnState := _setupOnState g;
     versionObservable := versionObservable g;
     rtpDisplayObservable := rtpDisplayObservable g;
     autoCompleteObservable := autoCompleteObservable g;
     _clientDefaults := _clientDefaults g;
     _localRef := _localRef g;
     _communicatorRef := _communicatorRef g;
     _clientConfig := _clientConfig g;
     _rgsConfig := _rgsConfig g;
     _onSetupCompleteHandlers := _onSetupCompleteHandlers g;
     CLog_Debug := b |}.

Definition set_platformBetOption (b : BetOptionField) (r : ISetupResult) : ISetupResult :=
  {| settings := settings r;
     denomConfigs := denomConfigs r;
     betConfigs := betConfigs r;
     roundStates := roundStates r;
     previousRoundState := previousRoundState r;
     activeDenom := activeDenom r;
     defaultBet := defaultBet r;
     time := time r;
     rgsTzOffset := rgsTzOffset r;
     platformBetOption := b;
     sr_version := sr_version r |}.

Definition set_settings (s : option ISettings) (r : ISetupResult) : ISetupResult :=
  {| settings := s;
     denomConfigs := denomConfigs r;
     betConfigs := betConfigs r;
     roundStates := roundStates r;
     previousRoundState := previousRoundState r;
     activeDenom := activeDenom r;
     defaultBet := defaultBet r;
     time := time r;
     rgsTzOffset := rgsTzOffset r;
     platformBetOption := platformBetOption r;
     sr_version := sr_version r |}.

Definition set_uiDisplayOptions (d : option DisplayOptions) (s : ISettings) : ISettings :=
  {| s_use12HourClock := s_use12HourClock s;
     uiDisplayOptions := d;
     juris := juris s;
     keyboardEnabled := keyboardEnabled s;
     s_lobbyUrl := s_lobbyUrl s;
     lobbyWindowDepth := lobbyWindowDepth s;
     minimumSpinDelay := minimumSpinDelay s;
     disableDemo := disableDemo s;
     prizeForceEnabled := prizeForceEnabled s;
     quickStopEnabled := quickStopEnabled s;
     wagerDisplay := wagerDisplay s |}.

(** ** The monad of the stateful members

    A computation reads and updates the component, appends to the trace of
    events, and either returns or raises; the component and the trace reached
    at the point of a [Throw] are kept. *)
Definition M (A : Type) : Type := GameSetup -> Outcome A * GameSetup * list Event.

Definition ret {A} (a : A) : M A := fun g => (Ret a, g, []).

Definition bind {A B} (m : M A) (f : A -> M B) : M B :=
  fun g =>
    match m g with
    | (Ret a, g1, t1) =>
        match f a g1 with
        | (r, g2, t2) => (r, g2, t1 ++ t2)
        end
    | (Throw e, g1, t1) => (Throw e, g1, t1)
    end.

Definition get : M GameSetup := fun g => (Ret g, g, []).
Definition modify (f : GameSetup -> GameSetup) : M unit := fun g => (Ret tt, f g, []).
Definition emit (e : Event) : M unit := fun g => (Ret tt, g, [e]).
Definition throw {A} (e : JsError) : M A := fun g => (Throw e, g, []).

(** Run a read-only member that may raise. *)
Definition lift {A} (f : GameSetup -> Outcome A) : M A := fun g => (f g, g, []).

Declare Scope js_scope.
Delimit Scope js_scope with js.
Notation "x <- c ;; k" := (bind c (fun x => k))
  (at level 61, c at next level, right associativity) : js_scope.
Notation "c ;; k" := (bind c (fun _ => k))
  (at level 61, right associativity) : js_scope.

Definition when (b : bool) (m : M unit) : M unit := if b then m else ret tt.

(** The three components of a run. *)
Definition outcome_of {A} (r : Outcome A * GameSetup * list Event) : Outcome A := fst (fst r).
Definition state_of {A} (r : Outcome A * GameSetup * list Event) : GameSetup := snd (fst r).
Definition trace_of {A} (r : Outcome A * GameSetup * list Event) : list Event := snd r.

(** ** Launch-configuration accessors *)

Definition obind {A B} (o : Outcome A) (f : A -> Outcome B) : Outcome B :=
  match o with
  | Ret a => f a
  | Throw e => Throw e
  end.

(** [Client]: [clientType.toLowerCase()] is called on the member whatever it
    holds, so a [null] member raises. *)
Definition Client (g : GameSetup) : Outcome ClientType :=
  match _clientConfig g with
  | Some c =>
      match clientType c with
      | Some t =>
          if String.eqb (toLowerCase t) "desktop" then Ret Desktop else Ret Mobile
      | None => Throw (TypeError "clientType is null")
      end
  | None => Ret Mobile
  end.

Definition CurrencyCode (g : GameSetup) : string :=
  match _clientConfig g with
  | Some c =>
      if truthy_string (currencyCode c)
      then match currencyCode c with Some s => s | None => "USD" end
      else "USD"
  | None => "USD"
  end.

Definition GameStyle (g : GameSetup) : GameType :=
  match _clientConfig g with
  | Some c => if String.eqb (toLowerCase (gameType c)) "wager" then Wager else Social
  | None => Social
  end.

Definition Jurisdiction (g : GameSetup) : Outcome string :=
  match _clientConfig g with
  | Some c => Ret (jurisdiction c)
  | None => Throw (TypeError "_clientConfig is null")
  end.

Definition Recall (g : GameSetup) : bool :=
  match _clientConfig g with
  | Some c => match recall c with Some _ => true | None => false end
  | None => false
  end.

Definition RGSPort (g : GameSetup) : Z :=
  match _clientConfig g with
  | Some c => serverPort c
  | None => 8080
  end.

Definition Use12HourClock (g : GameSetup) : bool :=
  let fromLaunch :=
    match _clientConfig g with
    | Some c => use12HourClock c
    | None => true
    end in
  match _rgsConfig g with
  | Some r =>
      match settings r with
      | Some s =>
          match s_use12HourClock s with
          | Some b => b
          | None => fromLaunch
          end
      | None => fromLaunch
      end
  | None => fromLaunch
  end.

Definition Version (g : GameSetup) : JsString :=
  match _clientConfig g with
  | Some c => Str (version c)
  | None => StrNull
  end.

Definition PlatformRecallRoundID (g : GameSetup) : option string :=
  match _clientConfig g with
  | Some c => platformRecallRoundId c
  | None => None
  end.

(** ** Setup-result accessors *)

Definition BetConfigs (g : GameSetup) : Outcome (option (list (string * IBetConfig))) :=
  match _rgsConfig g with
  | Some r => Ret (betConfigs r)
  | None => Throw (TypeError "_rgsConfig is null")
  end.

Definition DefaultBet (g : GameSetup) : option IDefaultBet :=
  match _rgsConfig g with
  | Some r => defaultBet r
  | None => None
  end.

Definition DenomConfigs (g : GameSetup) : option (list (string * IDenomConfig)) :=
  match _rgsConfig g with
  | Some r => denomConfigs r
  | None => None
  end.

Definition KeyboardEnabled (g : GameSetup) : bool :=
  match _rgsConfig g with
  | Some r => match settings r with Some s => keyboardEnabled s | None => false end
  | None => false
  end.

(** [LastPlayState]: an array, even an empty one, is truthy, so with a round
    history present the result is its element 0, [undefined] when there is
    none. *)
Definition LastPlayState (g : GameSetup) : JsVal IPlayState :=
  match _rgsConfig g with
  | None => Null
  | Some r =>
      match roundStates r with
      | Some rs =>
          match rs with
          | e :: _ => Val e
          | [] => Undefined
          end
      | None =>
          match previousRoundState r with
          | Some p => Val p
          | None => Null
          end
      end
  end.

(** [HasLobbyURL]: the second test reads [settings.lobbyUrl] without testing
    [settings]. *)
Definition HasLobbyURL (g : GameSetup) : Outcome bool :=
  if match _clientConfig g with
     | Some c => truthy_string (lobbyUrl c)
     | None => false
     end
  then Ret true
  else
    match _rgsConfig g with
    | Some r =>
        match settings r with
        | Some s => if truthy_string (s_lobbyUrl s) then Ret true else Ret false
        | None => Throw (TypeError "settings is undefined")
        end
    | None => Ret false
    end.

Definition IsPrizeForceEnabled (g : GameSetup) : bool :=
  match _rgsConfig g with
  | None => false
  | Some r =>
      match settings r with
      | None => false
      | Some s =>
          match disableDemo s with
          | Some true => false
          | _ => prizeForceEnabled s
          end
      end
  end.

Definition QuickStopPermitted (g : GameSetup) : bool :=
  match _rgsConfig g with
  | Some r => match settings r with Some s => quickStopEnabled s | None => true end
  | None => true
  end.

Definition ServerTime (g : GameSetup) : Z :=
  match _rgsConfig g with
  | Some r => time r
  | None => 0
  end.

Definition Settings (g : GameSetup) : Outcome (option ISettings) :=
  match _rgsConfig g with
  | Some r => Ret (settings r)
  | None => Throw (TypeError "_rgsConfig is null")
  end.

(** ** Display policy *)

Section DisplayPolicy.
Context {host : Host}.

Definition IsWebView : bool :=
  let ua := toLowerCase userAgent in
  let safari := includes "safari" ua in
  let ios := (includes "iphone" ua || includes "ipod" ua || includes "ipad" ua)%bool in
  if ios then (if safari then false else true)
  else chromeWebViewTest ua.

(** [ShouldDisplay]: [None] is the [undefined] that falls out of the switch
    for a key without a case. *)
Definition ShouldDisplay (g : GameSetup) (key : DisplayKey) : Outcome (option bool) :=
  match _rgsConfig g with
  | None => Ret (Some false)
  | Some r =>
    match settings r with
    | None => Ret (Some false)
    | Some s =>
      match uiDisplayOptions s with
      | None => Ret (Some false)
      | Some ui =>
        match key with
        | Key_AutoSpin => Ret (Some (negb (String.eqb (ap_type (autoSpin ui)) "none")))
        | Key_Balance => Ret (Some (balance ui))
        | Key_Bet => Ret (Some (bet ui))
        | Key_Help => Ret (Some (help ui))
        | Key_Language => Ret (Some (language ui))
        | Key_Lobby =>
            obind (if lobby ui then HasLobbyURL g else Ret false)
              (fun displayLobby =>
                 if displayLobby then
                   let exclusion := lobbyExclusion ui in
                   if String.eqb exclusion "web"
                   then Ret (Some (if Bool.eqb IsWebView false then false else displayLobby))
                   else if String.eqb exclusion "webview"
                   then Ret (Some (if Bool.eqb IsWebView true then false else displayLobby))
                   else Ret (Some displayLobby)
                 else Ret (Some displayLobby))
        | Key_Recall =>
            match do_recall ui with
            | Some options => Ret (Some (ro_enabled options))
            | None => Throw (TypeError "recall is undefined")
            end
        | Key_RTP => Ret (Some (rtp_flag ui))
        | Key_ServerTime => Ret (Some (serverTime ui && negb (Recall g))%bool)
        | Key_SessionTime => Ret (Some (sessionTime ui && negb (Recall g))%bool)
        | Key_Settings => Ret (Some (do_settings ui))
        | Key_Sound => Ret (Some (sound ui))
        | Key_Turbo => Ret (Some (turbo ui && QuickStopPermitted g)%bool)
        | Key_Social => Ret (Some (match GameStyle g with Social => true | Wager => false end))
        | Key_ForWager => Ret (Some (match GameStyle g with Wager => true | Social => false end))
        | Key_GameInfo => Ret (Some (gameName ui && negb (Recall g))%bool)
        | Key_Demo => Ret (Some (IsPrizeForceEnabled g && negb (Recall g))%bool)
        | Key_QuickStop => Ret (Some (QuickStopPermitted g))
        | Key_KeyboardControls => Ret (Some (KeyboardEnabled g))
        | OtherKey _ => Ret None
        end
      end
    end
  end.
End DisplayPolicy.

(** ** Listener list *)

Local Open Scope js_scope.

Definition OnSetupReceived (handler : Handler) : M unit :=
  modify (fun g => set_handlers (_onSetupCompleteHandlers g ++ [handler]) g).

(** [OffSetupReceived]: the list is replaced by its elements for which
    [setupHandler === handler] holds. *)
Definition OffSetupReceived (handler : Handler) : M unit :=
  modify (fun g =>
    set_handlers (filter (fun setupHandler => Nat.eqb setupHandler handler)
                         (_onSetupCompleteHandlers g)) g).

(** ** Previous results *)

Definition matchesRound (roundId playId : Z) (round : IPlayState) : bool :=
  ((PlaySequenceNumber (playResult round) =? roundId)
   && (GamePlayIndex (playResult round) =? playId))%bool.

(** The [forEach] of [GetPreviousResult]: the [return] inside the callback
    ends one call of the callback, not the iteration, so every entry is
    visited and a later match overwrites an earlier one. *)
Definition findRound (roundId playId : Z) (rounds : list IPlayState) : option IPlayState :=
  fold_left
    (fun foundRound round =>
       if matchesRound roundId playId round then Some round else foundRound)
    rounds None.

Definition noRoundStatesMessage : string :=
  "Tried to get a previous result, but no roundStates found".

Definition noRoundStateMessage (roundId playId : Z) : string :=
  ("Tried to get a previous result, but no roundState found"
   ++ " for round " ++ Z_to_string roundId ++ ", play " ++ Z_to_string playId
   ++ ". Reverting to latest.")%string.

Section PreviousResult.
Context {host : Host}.

(** [JSON.stringify] of what [foundRound] may hold. *)
Definition JSON_stringify_val (v : JsVal IPlayState) : JsString :=
  match v with
  | Val e => Str (JSON_stringify e)
  | Null => Str "null"
  | Undefined => StrUndefined
  end.

Definition GetPreviousResult (roundId playId : Z) : M JsString :=
  g <- get ;;
  match _rgsConfig g with
  | None => throw (TypeError "_rgsConfig is null")
  | Some r =>
      match roundStates r with
      | None => emit (LogError noRoundStatesMessage) ;; ret StrNull
      | Some rounds =>
          match findRound roundId playId rounds with
          | Some foundRound => ret (JSON_stringify_val (Val foundRound))
          | None =>
              emit (LogError (noRoundStateMessage roundId playId)) ;;
              ret (JSON_stringify_val (LastPlayState g))
          end
      end
  end.
End PreviousResult.

(** ** Derived display strings *)

Fixpoint insert_asc (x : Z) (l : list Z) : list Z :=
  match l with
  | [] => [x]
  | y :: r => if x <=? y then x :: l else y :: insert_asc x r
  end.

(** [slice(0).sort((a, b) => a - b)]: an ascending copy. *)
Definition sort_asc (l : list Z) : list Z := fold_right insert_asc [] l.

(** [a[i]]: [undefined] outside the array. *)
Definition js_index (a : list Z) (i : Z) : JsVal Z :=
  if i <? 0 then Undefined
  else match nth_error a (Z.to_nat i) with
       | Some x => Val x
       | None => Undefined
       end.

(** The numeric value used by [<] and [>]: [null] counts as 0 and
    [undefined] as NaN, which compares false with everything. *)
Definition toNumber (v : JsVal Z) : option Z :=
  match v with
  | Val z => Some z
  | Null => Some 0
  | Undefined => None
  end.

Definition js_lt (a b : JsVal Z) : bool :=
  match toNumber a, toNumber b with
  | Some x, Some y => x <? y
  | _, _ => false
  end.

Definition js_gt (a b : JsVal Z) : bool := js_lt b a.

Record RtpScan : Type := {
  low : JsVal Z;
  high : JsVal Z;
  first : bool
}.

(** One round of the loop over the denom configs. *)
Definition rtpStep (acc : RtpScan) (entry : string * IDenomConfig) : RtpScan :=
  match rtp (snd entry) with
  | None => acc
  | Some values =>
      let rtps := sort_asc values in
      let newLow := js_index rtps 0 in
      let newHigh := js_index rtps (Z.of_nat (List.length rtps) - 1) in
      if first acc then {| low := newLow; high := newHigh; first := false |}
      else {| low := if js_lt newLow (low acc) then newLow else low acc;
              high := if js_gt newHigh (high acc) then newHigh else high acc;
              first := first acc |}
  end.

Definition rtpScan (configs : list (string * IDenomConfig)) : RtpScan :=
  fold_left rtpStep configs {| low := Null; high := Null; first := true |}.

(** [if (low) { low = low / 100; }]: a zero, [null] or [undefined] bound is
    left as it is. *)
Definition scale100 (v : JsVal Z) : JsVal Q :=
  match v with
  | Val z => if truthy_num v then Val (z # 100) else Val (inject_Z z)
  | Null => Null
  | Undefined => Undefined
  end.

Definition js_strict_neq (a b : JsVal Q) : bool :=
  match a, b with
  | Val x, Val y => negb (Qeq_bool x y)
  | Null, Null => false
  | Undefined, Undefined => false
  | _, _ => true
  end.

Definition two_digits (k : Z) : string :=
  if k <? 10 then ("0" ++ Z_to_string k)%string else Z_to_string k.

(** [toFixed(2)]: the nearest multiple of 1/100, the larger one on a tie,
    written with two decimals. *)
Definition toFixed2 (q : Q) : string :=
  let a := Z.abs (Qnum q) in
  let d := Z.pos (Qden q) in
  let n := (2 * a * 100 + d) / (2 * d) in
  let sign := if Qnum q <? 0 then "-" else "" in
  (sign ++ Z_to_string (n / 100)%Z ++ "." ++ two_digits (n mod 100)%Z)%string.

Definition percent (q : Q) : string := (toFixed2 q ++ "%")%string.

Section Observables.
Context {host : Host}.

(** The value given to the RTP observable once [low] is a number;
    [high.toFixed] raises when [high] is not one. *)
Definition rtpText (local : bool) (l : Q) (h : JsVal Q) : Outcome string :=
  if js_strict_neq (Val l) h then
    match h with
    | Val hq =>
        Ret (if local
             then GetStringResource "HelpScreen/RTPRange" [percent l; percent hq]
             else ("RTP " ++ percent l ++ " - " ++ percent hq)%string)
    | _ => Throw (TypeError "high is not a number")
    end
  else
    Ret (if local
         then GetStringResource "HelpScreen/RTP" [percent l]
         else ("RTP " ++ percent l)%string).

Definition updateVersion : M unit :=
  g <- get ;;
  match versionObservable g with
  | Some _ => modify (set_versionObservable (Some (Version g)))
  | None => ret tt
  end.

Definition updateAutoComplete : M unit :=
  g <- get ;;
  match autoCompleteObservable g, _rgsConfig g with
  | Some _, Some r =>
      match settings r with
      | Some s =>
          match juris s with
          | Some j =>
              let freq := autoCompleteDayFreq j in
              let max := autoCompleteDayMax j in
              if freq =? max
              then modify (set_autoCompleteObservable (Some (Str (Z_to_string max))))
              else modify (set_autoCompleteObservable
                             (Some (Str (Z_to_string (freq * 24)%Z ++ " - "
                                         ++ Z_to_string (max * 24)%Z)%string)))
          | None => ret tt
          end
      | None => ret tt
      end
  | _, _ => ret tt
  end.

Definition updateRtpDisplay : M unit :=
  g <- get ;;
  match rtpDisplayObservable g, DenomConfigs g with
  | Some _, Some configs =>
      let scan := rtpScan configs in
      let low := scale100 (low scan) in
      let high := scale100 (high scan) in
      match low with
      | Val l =>
          text <- lift (fun _ => rtpText (_localRef g) l high) ;;
          modify (set_rtpDisplayObservable (Some (Str text)))
      | _ =>
          modify (set_rtpDisplayObservable (Some (Str ""))) ;;
          emit (LogInfo "No RTP configured for game.")
      end
  | _, _ => ret tt
  end.

Definition updateObservables : M unit :=
  updateVersion ;; updateAutoComplete ;; updateRtpDisplay.
End Observables.

(** ** Setup request and receipt *)

(** Modelled from the spec: [withValue] of [Utility/Misc], which the source
    imports. The spec describes its use on [platformBetOption]: the first
    callback runs on the value when it has arrived, the second when it is
    absent; a missing second callback does nothing. *)
Definition withValue {A} (value : option A) (fn : A -> M unit) (otherwise : M unit) : M unit :=
  match value with
  | Some v => fn v
  | None => otherwise
  end.

Definition present_betOption (b : BetOptionField) : option BetOptionField :=
  match b with
  | BetOptionAbsent => None
  | _ => Some b
  end.

Definition present {A} (v : JsVal A) : option A :=
  match v with
  | Val a => Some a
  | _ => None
  end.

Definition invalidSetupMessage : string := "Invalid setup data, cannot proceed.".

Definition parseErrorMessage (option msg : string) : string :=
  ("Error parsing bet scalars, string: [" ++ option ++ "] => error: [" ++ msg ++ "]")%string.

Section Setup.
Context {host : Host}.

(** [parsePlatformBetOptions]: [setupResult] is the object just stored in
    [_rgsConfig], so an assignment to its member is an update of
    [_rgsConfig]. *)
Definition parsePlatformBetOptions (setupResult : ISetupResult) : M unit :=
  withValue (present_betOption (platformBetOption setupResult))
    (fun option =>
       match option with
       | BetOptionString s =>
           match JSON_parse s with
           | inl parsed =>
               modify (set_rgsConfig (Some (set_platformBetOption parsed setupResult)))
           | inr msg => emit (LogError (parseErrorMessage s msg))
           end
       | _ => ret tt
       end)
    (g <- get ;;
     withValue (present (LastPlayState g))
       (fun state =>
          modify (set_rgsConfig
                    (Some (set_platformBetOption (ps_platformBetOption state) setupResult))))
       (ret tt)).

(** [settings.uiDisplayOptions = this._clientDefaults.displayOptions] when
    the options are missing; the assignment dereferences [settings] also
    when it is [settings] that is missing. *)
Definition fillDisplayOptions : M unit :=
  g <- get ;;
  match _rgsConfig g with
  | None => ret tt
  | Some r =>
      match settings r with
      | None => throw (TypeError "settings is undefined")
      | Some s =>
          match uiDisplayOptions s with
          | Some _ => ret tt
          | None =>
              modify (set_rgsConfig
                        (Some (set_settings
                                 (Some (set_uiDisplayOptions
                                          (Some (displayOptions (_clientDefaults g))) s))
                                 r)))
          end
      end
  end.

Fixpoint forEachHandler (handlers : list Handler) : M unit :=
  match handlers with
  | [] => ret tt
  | h :: rest => emit (HandlerInvoked h) ;; forEachHandler rest
  end.

(** The statements of the handler that follow the display-option fix. *)
Definition notifyAndComplete : M unit :=
  g <- get ;;
  forEachHandler (_onSetupCompleteHandlers g) ;;
  when (_localRef g) (emit LocalOnChanged) ;;
  updateObservables ;;
  g <- get ;;
  modify (set_CLog_Debug (IsPrizeForceEnabled g)) ;;
  emit (CompleteState (_setupOnState g)).

Definition setupReceivedHandler (result : option ISetupResult) : M unit :=
  match result with
  | None => ret tt
  | Some result =>
      modify (set_rgsConfig (Some result)) ;;
      parsePlatformBetOptions result ;;
      g <- get ;;
      if match _rgsConfig g with
         | None => true
         | Some r => match denomConfigs r with None => true | Some _ => false end
         end
      then emit (LogError invalidSetupMessage)
      else fillDisplayOptions ;; notifyAndComplete
  end.

Definition requestSetup : M unit :=
  g <- get ;;
  when (_communicatorRef g)
    (if (Recall g || match PlatformRecallRoundID g with Some _ => true | None => false end)%bool
     then emit RequestRecallSetup
     else emit RequestSetup).

Definition onStateChangeHandler (event : StateID) : M unit :=
  g <- get ;;
  when (Nat.eqb event (_setupOnState g)) requestSetup.

Definition onLoad : M unit :=
  modify (set_clientConfig window_clientConfig) ;;
  g <- get ;;
  match _clientConfig g with
  | Some _ => ret tt
  | None =>
      modify (set_clientConfig (Some (asClientConfig (_clientDefaults g)))) ;;
      when (negb CC_DEBUG) (emit (LogError "No client config present."))
  end ;;
  updateObservables.
End Setup.

(** ** Construction *)

Definition new_AutoPlayConfig : AutoPlayConfig :=
  {| ap_type := "standard"; ap_options := [10; 25; 50; 100; 200]; ap_max := 200 |}.

Definition new_RecallOptions : RecallOptions :=
  {| ro_enabled := true; ro_history := 10 |}.

Definition new_DisplayOptions : DisplayOptions :=
  {| autoSpin := new_AutoPlayConfig;
     balance := false; bet := false; gameName := false; help := false;
     language := false; lobby := false; lobbyExclusion := "";
     do_recall := Some new_RecallOptions;
     rtp_flag := false; serverTime := false; sessionTime := false;
     do_settings := false; sound := false; turbo := false |}.

Definition new_ClientDefaults : ClientDefaults :=
  {| cd_gameId := ""; cd_platformId := ""; cd_serverHost := "";
     cd_serverPort := 8080; cd_rgsVersion := "1.0.0";
     cd_operatorId := "operator_everi"; cd_jurisdiction := "everi";
     cd_gameType := "wager"; cd_clientType := "mobile"; cd_locale := "en_US";
     cd_currencyCode := "USD"; cd_use12HourClock := true;
     cd_userId := ""; cd_userToken := ""; cd_version := "0.0.0";
     displayOptions := new_DisplayOptions;
     cd_platformRecallRoundId := None; cd_clientconfig := None |}.

(** The component as its field initialisers leave it; [wired] tells whether
    the three observables are attached and the communicator resolves,
    [localized] whether the localization component resolves;
    [StateID.Initializing] is state 0. *)
Definition new_GameSetup (wired localized : bool) : GameSetup :=
  {| _setupOnState := 0%nat;
     versionObservable := if wired then Some StrNull else None;
     rtpDisplayObservable := if wired then Some StrNull else None;
     autoCompleteObservable := if wired then Some StrNull else None;
     _clientDefaults := new_ClientDefaults;
     _localRef := localized;
     _communicatorRef := wired;
     _clientConfig := None;
     _rgsConfig := None;
     _onSetupCompleteHandlers := [];
     CLog_Debug := false |}.

(** The states a component can be in: constructed, then driven by its
    lifecycle method, the listener registration and the setup callback. *)
Inductive reachable {host : Host} : GameSetup -> Prop :=
| reach_new : forall wired localized, reachable (new_GameSetup wired localized)
| reach_onLoad : forall g, reachable g -> reachable (state_of (onLoad g))
| reach_on : forall g h, reachable g -> reachable (state_of (OnSetupReceived h g))
| reach_off : forall g h, reachable g -> reachable (state_of (OffSetupReceived h g))
| reach_setup : forall g r, reachable g -> reachable (state_of (setupReceivedHandler r g)).

(** ** Sample data *)

Definition sampleStringify (e : IPlayState) : string :=
  ("{round:" ++ Z_to_string (PlaySequenceNumber (playResult e))
   ++ ",play:" ++ Z_to_string (GamePlayIndex (playResult e)) ++ "}")%string.

(** A host without an injected client configuration, in a desktop browser,
    whose [JSON.parse] rejects every string. *)
Definition sampleHost : Host :=
  {| window_clientConfig := None;
     CC_DEBUG := true;
     userAgent := "Mozilla/5.0 (X11; Linux x86_64) Firefox/120.0";
     chromeWebViewTest := fun _ => false;
     JSON_parse := fun _ => inr "Unexpected token";
     JSON_stringify := sampleStringify;
     GetStringResource := fun key args => (key ++ ":" ++ String.concat "," args)%string |}.

Definition sampleLaunch : IClientConfig :=
  {| gameId := "game"; platformId := "platform"; serverHost := "rgs.example";
     serverPort := 9443; rgsVersion := "1.0.0"; operatorId := Some "operator";
     gameType := "wager"; clientType := Some "Desktop"; locale := Some "en_US";
     currencyCode := Some "EUR"; userId := "user"; userToken := "token";
     use12HourClock := true; version := "1.2.3"; recall := None;
     jurisdiction := "everi"; lobbyUrl := None; rgsUser := None;
     rgsSession := None; platformRecallRoundId := None; clientconfig := None |}.

(** [sampleLaunch] with [clientType: null], which the interface allows. *)
Definition launchNullClientType : IClientConfig :=
  {| gameId := "game"; platformId := "platform"; serverHost := "rgs.example";
     serverPort := 9443; rgsVersion := "1.0.0"; operatorId := Some "operator";
     gameType := "wager"; clientType := None; locale := Some "en_US";
     currencyCode := Some "EUR"; userId := "user"; userToken := "token";
     use12HourClock := true; version := "1.2.3"; recall := None;
     jurisdiction := "everi"; lobbyUrl := None; rgsUser := None;
     rgsSession := None; platformRecallRoundId := None; clientconfig := None |}.

Definition sampleSettings : ISettings :=
  {| s_use12HourClock := Some false;
     uiDisplayOptions := None;
     juris := None;
     keyboardEnabled := true;
     s_lobbyUrl := None;
     lobbyWindowDepth := None;
     minimumSpinDelay := 0;
     disableDemo := None;
     prizeForceEnabled := false;
     quickStopEnabled := true;
     wagerDisplay := "credits" |}.

Definition mkRound (round play : Z) : IPlayState :=
  {| playResult := {| PlaySequenceNumber := round; GamePlayIndex := play; playId := play |};
     ps_platformBetOption := BetOptionAbsent |}.

Definition sampleRounds : list IPlayState := [mkRound 7 1; mkRound 6 2; mkRound 6 1].

Definition mkSetup (s : option ISettings) (d : option (list (string * IDenomConfig)))
    (rounds : option (list IPlayState)) : ISetupResult :=
  {| settings := s; denomConfigs := d; betConfigs := Some [];
     roundStates := rounds; previousRoundState := None;
     activeDenom := 1; defaultBet := None; time := 1700000000;
     rgsTzOffset := 0; platformBetOption := BetOptionAbsent; sr_version := 1 |}.

Definition mkDenom (values : option (list Z)) : IDenomConfig := {| rtp := values |}.

(** A loaded component: launch configuration [c], no setup received yet. *)
Definition loaded (c : IClientConfig) : GameSetup :=
  set_clientConfig (Some c) (new_GameSetup true false).

(** A component that has stored the setup result [r]. *)
Definition configured (c : IClientConfig) (r : ISetupResult) : GameSetup :=
  set_rgsConfig (Some r) (loaded c).

(** ** Notions used by the statements *)

(** The clock setting the received setup result carries, if any. *)
Definition remote_use12HourClock (g : GameSetup) : option bool :=
  match _rgsConfig g with
  | Some r =>
      match settings r with
      | Some s => s_use12HourClock s
      | None => None
      end
  | None => None
  end.

(** Display options with every flag set and the lobby excluded in web views. *)
Definition lobbyOptions : DisplayOptions :=
  {| autoSpin := new_AutoPlayConfig;
     balance := true; bet := true; gameName := true; help := true;
     language := true; lobby := true; lobbyExclusion := "webview";
     do_recall := Some new_RecallOptions;
     rtp_flag := true; serverTime := true; sessionTime := true;
     do_settings := true; sound := true; turbo := true |}.

(** The entry at index 0 of the round history, [undefined] for an empty one. *)
Definition firstRound (rounds : list IPlayState) : JsVal IPlayState :=
  match rounds with
  | e :: _ => Val e
  | [] => Undefined
  end.

(** A computation that never changes the stored setup result, whether it
    returns or raises. *)
Definition keeps_rgsConfig {A} (m : M A) : Prop :=
  forall g, _rgsConfig (state_of (m g)) = _rgsConfig g.

(** All the RTP values the denom configs define, in visiting order. *)
Definition definedValues (configs : list (string * IDenomConfig)) : list Z :=
  flat_map (fun entry => match rtp (snd entry) with
                         | Some values => values
                         | None => []
                         end) configs.

Definition is_min (m : Z) (l : list Z) : Prop := In m l /\ Forall (fun x => m <= x) l.
Definition is_max (M : Z) (l : list Z) : Prop := In M l /\ Forall (fun x => x <= M) l.

(** What the scan holds after the configs visited so far defined [seen]. *)
Definition scan_inv (acc : RtpScan) (seen : list Z) : Prop :=
  (first acc = true /\ seen = [])
  \/ (first acc = false
      /\ exists m M, low acc = Val m /\ high acc = Val M /\ is_min m seen /\ is_max M seen).

(** The number a bound becomes in [if (low) { low = low / 100; }]. *)
Definition scaled (z : Z) : Q := if z =? 0 then inject_Z z else z # 100.

Section Reference.
Context {host : Host}.

(** The bet option after normalisation, following the description of the
    step: an encoded string is decoded (and kept when decoding fails), a
    structured value is kept, an absent one is inherited from the most
    recent prior play. *)
Definition normalizedBetOption (result : ISetupResult) : BetOptionField :=
  match platformBetOption result with
  | BetOptionString s =>
      match JSON_parse s with
      | inl parsed => parsed
      | inr _ => BetOptionString s
      end
  | BetOptionValue v => BetOptionValue v
  | BetOptionAbsent =>
      match roundStates result with
      | Some (e :: _) => ps_platformBetOption e
      | Some [] => BetOptionAbsent
      | None =>
          match previousRoundState result with
          | Some p => ps_platformBetOption p
          | None => BetOptionAbsent
          end
      end
  end.

Definition normalized (result : ISetupResult) : ISetupResult :=
  set_platformBetOption (normalizedBetOption result) result.

(** What normalisation logs: the decoding error, if there is one. *)
Definition parseTrace (result : ISetupResult) : list Event :=
  match platformBetOption result with
  | BetOptionString s =>
      match JSON_parse s with
      | inl _ => []
      | inr msg => [LogError (parseErrorMessage s msg)]
      end
  | _ => []
  end.

(** The display string for a lowest value [m] and a highest value [M], in
    hundredths of a percent: one percentage when they are equal, a range of
    two otherwise; through the localization component when it resolves,
    in the fixed format otherwise. *)
Definition rtpDisplayText (local : bool) (m M : Z) : string :=
  if m =? M then
    if local then GetStringResource "HelpScreen/RTP" [percent (m # 100)]
    else ("RTP " ++ percent (m # 100))%string
  else
    if local
    then GetStringResource "HelpScreen/RTPRange" [percent (m # 100); percent (M # 100)]
    else ("RTP " ++ percent (m # 100) ++ " - " ++ percent (M # 100))%string.
End Reference.

(** ** Further accessors *)

(** [PlayID]: the recall play id when it is truthy; the getter has no other
    [return], so the result is [undefined] otherwise. *)
Definition PlayID (g : GameSetup) : option Z :=
  match _clientConfig g with
  | Some c =>
      match recall c with
      | Some p => if p =? 0 then None else Some p
      | None => None
      end
  | None => None
  end.

(** The getter [AutoSpinType] (the name is taken by the enumeration): a
    [type] outside the three cases falls out of the switch. *)
Definition get_AutoSpinType (g : GameSetup) : AutoSpinType :=
  match _rgsConfig g with
  | Some r =>
      match settings r with
      | Some s =>
          match uiDisplayOptions s with
          | Some ui =>
              if String.eqb (ap_type (autoSpin ui)) "none" then AutoSpin_None
              else if String.eqb (ap_type (autoSpin ui)) "standard" then AutoSpin_Standard
              else if String.eqb (ap_type (autoSpin ui)) "extended" then AutoSpin_Extended
              else AutoSpin_None
          | None => AutoSpin_None
          end
      | None => AutoSpin_None
      end
  | None => AutoSpin_None
  end.

(** [CurrentPlay] and [CurrentRound] read [playResult] of [LastPlayState]
    without testing it. *)
Definition CurrentPlay (g : GameSetup) : Outcome (JsVal Z) :=
  match _rgsConfig g with
  | None => Ret Null
  | Some _ =>
      match LastPlayState g with
      | Val currentState => Ret (Val (playId (playResult currentState)))
      | _ => Throw (TypeError "currentState is not an object")
      end
  end.

Definition CurrentRound (g : GameSetup) : Outcome (JsVal Z) :=
  match _rgsConfig g with
  | None => Ret Null
  | Some _ =>
      match LastPlayState g with
      | Val currentState => Ret (Val (PlaySequenceNumber (playResult currentState)))
      | _ => Throw (TypeError "currentState is not an object")
      end
  end.

(** [LobbyURL]; [href] is [window.location.href]. With settings received the
    result is their [lobbyUrl] member, whatever it holds. *)
Definition LobbyURL (href : string) (g : GameSetup) : option string :=
  if match _clientConfig g with
     | Some c => truthy_string (lobbyUrl c)
     | None => false
     end
  then match _clientConfig g with
       | Some c => lobbyUrl c
       | None => None
       end
  else
    match _rgsConfig g with
    | Some r =>
        match settings r with
        | Some s => s_lobbyUrl s
        | None => Some href
        end
    | None => Some href
    end.

(** [RecallHistory]: [settings] is read without a test; display options and
    their [recall] member are tested, and the default is the [history] of a
    fresh [RecallOptions]. *)
Definition RecallHistory (g : GameSetup) : Outcome Z :=
  match _rgsConfig g with
  | Some r =>
      match settings r with
      | Some s =>
          match uiDisplayOptions s with
          | Some ui =>
              match do_recall ui with
              | Some options => Ret (ro_history options)
              | None => Ret (ro_history new_RecallOptions)
              end
          | None => Ret (ro_history new_RecallOptions)
          end
      | None => Throw (TypeError "settings is undefined")
      end
  | None => Ret (ro_history new_RecallOptions)
  end.

Definition UseLocalTimeZone (g : GameSetup) : Outcome bool :=
  match _rgsConfig g with
  | Some r =>
      match settings r with
      | Some s =>
          match juris s with
          | Some j => if useLocalTimeZone j then Ret true else Ret false
          | None => Ret false
          end
      | None => Throw (TypeError "settings is undefined")
      end
  | None => Ret false
  end.

(** Truthiness of the [platformBetOption] member: an object is truthy, a
    string is unless it is empty. *)
Definition truthy_betOption (b : BetOptionField) : bool :=
  match b with
  | BetOptionAbsent => false
  | BetOptionString s => truthy_string (Some s)
  | BetOptionValue _ => true
  end.

(** [BetScalers]: a member still holding the encoded string has no [list]. *)
Definition BetScalers (g : GameSetup) : JsVal (list Z) :=
  match _rgsConfig g with
  | None => Null
  | Some r =>
      if truthy_betOption (platformBetOption r) then
        match platformBetOption r with
        | BetOptionValue v => Val (bo_list v)
        | _ => Undefined
        end
      else Null
  end.

Definition DefaultBetScale (g : GameSetup) : JsVal Z :=
  match _rgsConfig g with
  | None => Val (-1)
  | Some r =>
      if truthy_betOption (platformBetOption r) then
        match platformBetOption r with
        | BetOptionValue v => Val (defaultMult v)
        | _ => Undefined
        end
      else Val (-1)
  end.

(** ** Further sample data *)

(** [sampleLaunch] started for the recall of play 42. *)
Definition recallLaunch : IClientConfig :=
  {| gameId := "game"; platformId := "platform"; serverHost := "rgs.example";
     serverPort := 9443; rgsVersion := "1.0.0"; operatorId := Some "operator";
     gameType := "wager"; clientType := Some "Desktop"; locale := Some "en_US";
     currencyCode := Some "EUR"; userId := "user"; userToken := "token";
     use12HourClock := true; version := "1.2.3"; recall := Some 42;
     jurisdiction := "everi"; lobbyUrl := Some "https://lobby.example"; rgsUser := None;
     rgsSession := None; platformRecallRoundId := None; clientconfig := None |}.

Definition sampleBetOption : IPlatformBetOption :=
  {| bo_list := [1; 2; 5]; defaultMult := 2 |}.

(** A host whose [JSON.parse] decodes the one string "{bets}" and whose
    window carries [sampleLaunch]. *)
Definition decodingHost : Host :=
  {| window_clientConfig := Some sampleLaunch;
     CC_DEBUG := false;
     userAgent := "Mozilla/5.0 (iPhone; CPU iPhone OS 17_0 like Mac OS X) Mobile/15E148";
     chromeWebViewTest := fun _ => false;
     JSON_parse := fun s => if String.eqb s "{bets}"
                            then inl (BetOptionValue sampleBetOption)
                            else inr "Unexpected token";
     JSON_stringify := sampleStringify;
     GetStringResource := fun key args => (key ++ ":" ++ String.concat "," args)%string |}.

Definition fullSettings : ISettings :=
  set_uiDisplayOptions (Some lobbyOptions) sampleSettings.

(** ** Frames *)

(** The component fields that are not observables agree. *)
Definition only_observables (g g' : GameSetup) : Prop :=
  _setupOnState g' = _setupOnState g
  /\ _clientDefaults g' = _clientDefaults g
  /\ _localRef g' = _localRef g
  /\ _communicatorRef g' = _communicatorRef g
  /\ _clientConfig g' = _clientConfig g
  /\ _rgsConfig g' = _rgsConfig g
  /\ _onSetupCompleteHandlers g' = _onSetupCompleteHandlers g
  /\ CLog_Debug g' = CLog_Debug g.

Definition noRtpMessage : string := "No RTP configured for game.".

(** The bounds of a scan are both [null] (nothing seen), both [undefined]
    or both numbers. *)
Definition scan_shape (acc : RtpScan) : Prop :=
  (low acc = Null /\ high acc = Null /\ first acc = true)
  \/ (low acc = Undefined /\ high acc = Undefined /\ first acc = false)
  \/ (first acc = false /\ exists m M, low acc = Val m /\ high acc = Val M).

(** The setup result the handler keeps once it has accepted it: the
    display options of the editor defaults are filled in when the settings
    came without any. *)
Definition withDisplayOptions (defaults : DisplayOptions) (r : ISetupResult) : ISetupResult :=
  match settings r with
  | Some s =>
      match uiDisplayOptions s with
      | Some _ => r
      | None => set_settings (Some (set_uiDisplayOptions (Some defaults) s)) r
      end
  | None => r
  end.

(** Display options as a server may send them, without the [recall] member. *)
Definition optionsWithoutRecall : DisplayOptions :=
  {| autoSpin := new_AutoPlayConfig;
     balance := true; bet := true; gameName := true; help := true;
     language := true; lobby := true; lobbyExclusion := "";
     do_recall := None;
     rtp_flag := true; serverTime := true; sessionTime := true;
     do_settings := true; sound := true; turbo := true |}.

Section Validation.
Context {host : Host}.

(** The statements of the handler that follow the store and the
    normalisation: the [denomConfigs] test and everything after it. *)
Definition validateAndProceed : M unit :=
  g <- get ;;
  if match _rgsConfig g with
     | None => true
     | Some r => match denomConfigs r with None => true | Some _ => false end
     end
  then emit (LogError invalidSetupMessage)
  else fillDisplayOptions ;; notifyAndComplete.
End Validation.

(** * Properties *)

(** ** Precedence of the launch, remote and literal values *)

(** C1, as stated, fails for [Use12HourClock]: with a launch configuration
    asking for the 12-hour clock and received settings asking for the 24-hour
    clock, the accessor answers with the remote value, not the launch one. *)
Lemma C1_remote_clock_overrides_launch :
  let g := configured sampleLaunch (mkSetup (Some sampleSettings) None None) in
  _clientConfig g = Some sampleLaunch
  /\ use12HourClock sampleLaunch = true
  /\ remote_use12HourClock g = Some false
  /\ Use12HourClock g <> use12HourClock sampleLaunch.
Proof.
  cbn. repeat split; discriminate.
Qed.

(** C1, amended: [Use12HourClock] returns the remote setting whenever the
    received settings carry one, whatever the launch configuration says;
    without a remote setting it returns the launch value, and with neither
    it returns [true]. [CurrencyCode] returns the launch currency when it is
    present and non-empty and "USD" otherwise; [RGSPort] returns the launch
    port when the launch configuration is present and 8080 otherwise; neither
    of the two consults the setup result. *)
Theorem C1_precedence_by_field (g : GameSetup) :
  (forall b, remote_use12HourClock g = Some b -> Use12HourClock g = b)
  /\ (forall c, remote_use12HourClock g = None -> _clientConfig g = Some c ->
        Use12HourClock g = use12HourClock c)
  /\ (remote_use12HourClock g = None -> _clientConfig g = None ->
        Use12HourClock g = true)
  /\ (forall c s, _clientConfig g = Some c -> currencyCode c = Some s -> s <> "" ->
        CurrencyCode g = s)
  /\ (forall c, _clientConfig g = Some c -> truthy_string (currencyCode c) = false ->
        CurrencyCode g = "USD")
  /\ (_clientConfig g = None -> CurrencyCode g = "USD")
  /\ (forall c, _clientConfig g = Some c -> RGSPort g = serverPort c)
  /\ (_clientConfig g = None -> RGSPort g = 8080)
  /\ (forall r, CurrencyCode (set_rgsConfig r g) = CurrencyCode g
                /\ RGSPort (set_rgsConfig r g) = RGSPort g).
Proof.
  unfold remote_use12HourClock, Use12HourClock, CurrencyCode, RGSPort.
  repeat split.
  - intros b Hb.
    destruct (_rgsConfig g) as [r|]; [|discriminate].
    destruct (settings r) as [s|]; [|discriminate].
    now rewrite Hb.
  - intros c Hr Hc. rewrite Hc.
    destruct (_rgsConfig g) as [r|]; [|reflexivity].
    destruct (settings r) as [s|]; [|reflexivity].
    now rewrite Hr.
  - intros Hr Hc. rewrite Hc.
    destruct (_rgsConfig g) as [r|]; [|reflexivity].
    destruct (settings r) as [s|]; [|reflexivity].
    now rewrite Hr.
  - intros c s Hc Hs Hne. rewrite Hc, Hs.
    destruct s; [contradiction|reflexivity].
  - intros c Hc Hf. rewrite Hc, Hf. reflexivity.
  - intros Hc. now rewrite Hc.
  - intros c Hc. now rewrite Hc.
  - intros Hc. now rewrite Hc.
Qed.

Lemma C1_precedence_by_field_witness :
  let g := configured sampleLaunch (mkSetup (Some sampleSettings) None None) in
  Use12HourClock g = false /\ CurrencyCode g = "EUR" /\ RGSPort g = 9443.
Proof.
  intro g.
  destruct (C1_precedence_by_field g) as (Hremote & _ & _ & Hcur & _ & _ & Hport & _).
  split; [|split].
  - apply Hremote. reflexivity.
  - apply (Hcur sampleLaunch); [reflexivity | reflexivity | discriminate].
  - apply (Hport sampleLaunch). reflexivity.
Defined.

(** ** Client type *)

(** For a launch configuration whose [clientType] is a string, [Client] is
    [Desktop] exactly when its lower-cased form is "desktop"; without a
    launch configuration it is [Mobile]. *)
Lemma Client_of_string (g : GameSetup) (c : IClientConfig) (t : string) :
  _clientConfig g = Some c -> clientType c = Some t ->
  Client g = Ret (if String.eqb (toLowerCase t) "desktop" then Desktop else Mobile).
Proof.
  intros Hc Ht. unfold Client. rewrite Hc, Ht.
  now destruct (String.eqb (toLowerCase t) "desktop").
Qed.

Lemma Client_without_launch (g : GameSetup) :
  _clientConfig g = None -> Client g = Ret Mobile.
Proof.
  intros Hc. unfold Client. now rewrite Hc.
Qed.

(** C9: a launch configuration whose [clientType] is [null] is a value other
    than "desktop", yet [Client] raises instead of returning [Mobile]. *)
Theorem C9_null_clientType_raises :
  Client (loaded launchNullClientType) = Throw (TypeError "clientType is null")
  /\ Client (loaded launchNullClientType) <> Ret Mobile.
Proof.
  split; [reflexivity | discriminate].
Qed.

(** ** Listener list *)

Lemma OffSetupReceived_keeps_only (h : Handler) (g : GameSetup) :
  _onSetupCompleteHandlers (state_of (OffSetupReceived h g))
  = filter (fun k => Nat.eqb k h) (_onSetupCompleteHandlers g).
Proof. reflexivity. Qed.

(** Whatever was registered, after [OffSetupReceived h] every handler left
    in the list is [h] itself. *)
Lemma OffSetupReceived_leaves_only_h (h : Handler) (g : GameSetup) :
  Forall (fun k => k = h) (_onSetupCompleteHandlers (state_of (OffSetupReceived h g))).
Proof.
  rewrite OffSetupReceived_keeps_only. apply Forall_forall.
  intros k Hk. apply filter_In in Hk. destruct Hk as [_ Hk].
  now apply Nat.eqb_eq.
Qed.

(** C7: with handlers 1, 2, 3 registered in that order, [OffSetupReceived 2]
    leaves the list [2]: the handler to remove stays, the other two are gone. *)
Theorem C7_off_keeps_the_handler_and_drops_the_rest :
  let registered :=
    state_of (OnSetupReceived 3%nat
      (state_of (OnSetupReceived 2%nat
        (state_of (OnSetupReceived 1%nat (new_GameSetup true false)))))) in
  _onSetupCompleteHandlers registered = [1; 2; 3]%nat
  /\ _onSetupCompleteHandlers (state_of (OffSetupReceived 2%nat registered)) = [2]%nat.
Proof.
  split; reflexivity.
Qed.

(** ** Exceptions before the configuration is present *)

Lemma Settings_raises_without_setup (g : GameSetup) :
  _rgsConfig g = None -> Settings g = Throw (TypeError "_rgsConfig is null").
Proof.
  intros H. unfold Settings. now rewrite H.
Qed.

Lemma BetConfigs_raises_without_setup (g : GameSetup) :
  _rgsConfig g = None -> BetConfigs g = Throw (TypeError "_rgsConfig is null").
Proof.
  intros H. unfold BetConfigs. now rewrite H.
Qed.

Lemma GetPreviousResult_raises_without_setup {host : Host} (g : GameSetup) (roundId playId : Z) :
  _rgsConfig g = None ->
  outcome_of (GetPreviousResult roundId playId g) = Throw (TypeError "_rgsConfig is null").
Proof.
  intros H. unfold GetPreviousResult, bind, get, outcome_of. cbn. now rewrite H.
Qed.

(** C6: a component that has run [onLoad] and has not yet received a setup
    result is reachable, and there [Settings], [BetConfigs] and
    [GetPreviousResult] raise a [TypeError]; so does [Jurisdiction] on the
    component as constructed, before [onLoad]. The guarded siblings
    ([DenomConfigs], [DefaultBet], [ServerTime]) return there. *)
Theorem C6_unguarded_accessors_raise :
  let g := state_of (onLoad (host := sampleHost) (new_GameSetup true false)) in
  reachable (host := sampleHost) g
  /\ _rgsConfig g = None
  /\ Settings g = Throw (TypeError "_rgsConfig is null")
  /\ BetConfigs g = Throw (TypeError "_rgsConfig is null")
  /\ outcome_of (GetPreviousResult (host := sampleHost) 1 1 g)
     = Throw (TypeError "_rgsConfig is null")
  /\ DenomConfigs g = None /\ DefaultBet g = None /\ ServerTime g = 0
  /\ reachable (host := sampleHost) (new_GameSetup true false)
  /\ Jurisdiction (new_GameSetup true false) = Throw (TypeError "_clientConfig is null").
Proof.
  intro g.
  assert (Hg : _rgsConfig g = None) by reflexivity.
  split; [apply reach_onLoad, reach_new|].
  split; [exact Hg|].
  split; [now apply Settings_raises_without_setup|].
  split; [now apply BetConfigs_raises_without_setup|].
  split; [now apply GetPreviousResult_raises_without_setup|].
  repeat split. apply reach_new.
Qed.

(** ** Lobby display *)

(** C8: when [HasLobbyURL] answers [false], [ShouldDisplay] of the lobby key
    answers [false], whatever the lobby flag and the exclusion mode are. *)
Theorem C8_no_lobby_url_hides_lobby {host : Host} (g : GameSetup) :
  HasLobbyURL g = Ret false ->
  ShouldDisplay g Key_Lobby = Ret (Some false).
Proof.
  intros H. unfold ShouldDisplay.
  destruct (_rgsConfig g) as [r|]; [|reflexivity].
  destruct (settings r) as [s|]; [|reflexivity].
  destruct (uiDisplayOptions s) as [ui|]; [|reflexivity].
  destruct (lobby ui); [rewrite H|]; reflexivity.
Qed.

(** The lobby is displayed only when [HasLobbyURL] answers [true]; this also
    covers the components on which [HasLobbyURL] itself would raise. *)
Lemma ShouldDisplay_lobby_needs_url {host : Host} (g : GameSetup) :
  ShouldDisplay g Key_Lobby = Ret (Some true) -> HasLobbyURL g = Ret true.
Proof.
  unfold ShouldDisplay.
  destruct (_rgsConfig g) as [r|]; [|discriminate].
  destruct (settings r) as [s|]; [|discriminate].
  destruct (uiDisplayOptions s) as [ui|]; [|discriminate].
  destruct (lobby ui); [|discriminate].
  destruct (HasLobbyURL g) as [[|]|e]; [reflexivity | discriminate | discriminate].
Qed.

Lemma C8_no_lobby_url_hides_lobby_witness :
  let g := configured sampleLaunch
             (mkSetup (Some (set_uiDisplayOptions (Some lobbyOptions) sampleSettings))
                      (Some []) None) in
  HasLobbyURL g = Ret false
  /\ ShouldDisplay (host := sampleHost) g Key_Lobby = Ret (Some false).
Proof.
  intro g. split.
  - reflexivity.
  - apply (C8_no_lobby_url_hides_lobby (host := sampleHost) g). reflexivity.
Defined.

(** ** Previous results *)

Lemma matchesRound_true (roundId playId : Z) (e : IPlayState) :
  matchesRound roundId playId e = true <->
  PlaySequenceNumber (playResult e) = roundId /\ GamePlayIndex (playResult e) = playId.
Proof.
  unfold matchesRound. rewrite andb_true_iff, !Z.eqb_eq. tauto.
Qed.

Lemma findRound_acc (roundId playId : Z) (rounds : list IPlayState) (acc : option IPlayState) :
  fold_left
    (fun foundRound round =>
       if matchesRound roundId playId round then Some round else foundRound)
    rounds acc
  = match findRound roundId playId rounds with
    | Some e => Some e
    | None => acc
    end.
Proof.
  unfold findRound. revert acc.
  induction rounds as [|x rounds IH]; intros acc; cbn; [reflexivity|].
  rewrite IH. rewrite (IH (if matchesRound roundId playId x then Some x else None)).
  destruct (fold_left _ rounds None); [reflexivity|].
  now destruct (matchesRound roundId playId x).
Qed.

Lemma findRound_cons (roundId playId : Z) (x : IPlayState) (rounds : list IPlayState) :
  findRound roundId playId (x :: rounds)
  = match findRound roundId playId rounds with
    | Some e => Some e
    | None => if matchesRound roundId playId x then Some x else None
    end.
Proof.
  unfold findRound at 1. cbn. apply findRound_acc.
Qed.

Lemma findRound_Some (roundId playId : Z) (rounds : list IPlayState) (e : IPlayState) :
  findRound roundId playId rounds = Some e ->
  In e rounds /\ matchesRound roundId playId e = true.
Proof.
  induction rounds as [|x rounds IH]; [discriminate|].
  rewrite findRound_cons.
  destruct (findRound roundId playId rounds) as [e'|].
  - intros H. injection H as <-. destruct (IH eq_refl). split; [now right | assumption].
  - destruct (matchesRound roundId playId x) eqn:Hx; [|discriminate].
    intros H. injection H as <-. split; [now left | assumption].
Qed.

Lemma findRound_None (roundId playId : Z) (rounds : list IPlayState) :
  findRound roundId playId rounds = None <->
  (forall e, In e rounds -> matchesRound roundId playId e = false).
Proof.
  induction rounds as [|x rounds IH].
  - split; [intros _ e [] | reflexivity].
  - rewrite findRound_cons. split.
    + destruct (findRound roundId playId rounds); [discriminate|].
      destruct (matchesRound roundId playId x) eqn:Hx; [discriminate|].
      intros _ e [<-|He]; [assumption|]. now apply IH.
    + intros H.
      assert (Hr : findRound roundId playId rounds = None).
      { apply IH. intros e He. apply H. now right. }
      rewrite Hr, (H x (or_introl eq_refl)). reflexivity.
Qed.

(** C3: with a setup result received, [GetPreviousResult] leaves the
    component as it is and
    - without a round history, logs an error and returns [null];
    - with a history holding an entry whose sequence number and play index
      equal the arguments, returns the serialization of such an entry and
      logs nothing;
    - with a history holding no such entry, logs an error and returns the
      serialization of the entry at index 0, which is [LastPlayState]. *)
Theorem C3_GetPreviousResult {host : Host}
    (g : GameSetup) (r : ISetupResult) (roundId playId : Z) :
  _rgsConfig g = Some r ->
  state_of (GetPreviousResult roundId playId g) = g
  /\ (roundStates r = None ->
        outcome_of (GetPreviousResult roundId playId g) = Ret StrNull
        /\ trace_of (GetPreviousResult roundId playId g) = [LogError noRoundStatesMessage])
  /\ (forall rounds, roundStates r = Some rounds ->
        (exists e, In e rounds
                   /\ PlaySequenceNumber (playResult e) = roundId
                   /\ GamePlayIndex (playResult e) = playId) ->
        exists e, In e rounds
                  /\ PlaySequenceNumber (playResult e) = roundId
                  /\ GamePlayIndex (playResult e) = playId
                  /\ outcome_of (GetPreviousResult roundId playId g)
                     = Ret (Str (JSON_stringify e))
                  /\ trace_of (GetPreviousResult roundId playId g) = [])
  /\ (forall rounds, roundStates r = Some rounds ->
        (forall e, In e rounds ->
                   ~ (PlaySequenceNumber (playResult e) = roundId
                      /\ GamePlayIndex (playResult e) = playId)) ->
        trace_of (GetPreviousResult roundId playId g)
        = [LogError (noRoundStateMessage roundId playId)]
        /\ LastPlayState g = firstRound rounds
        /\ outcome_of (GetPreviousResult roundId playId g)
           = Ret (JSON_stringify_val (firstRound rounds))).
Proof.
  intros Hr.
  unfold GetPreviousResult, LastPlayState, bind, get, emit, ret,
    outcome_of, state_of, trace_of.
  cbn. rewrite Hr.
  split; [|split; [|split]].
  - destruct (roundStates r) as [rounds|]; [|reflexivity].
    now destruct (findRound roundId playId rounds).
  - intros Hn. rewrite Hn. split; reflexivity.
  - intros rounds Hs [e (He & Hseq & Hidx)]. rewrite Hs.
    destruct (findRound roundId playId rounds) as [found|] eqn:Hfind.
    + apply findRound_Some in Hfind. destruct Hfind as [Hin Hm].
      apply matchesRound_true in Hm. destruct Hm as [Hm1 Hm2].
      exists found. repeat split; assumption.
    + exfalso.
      assert (Hm : matchesRound roundId playId e = true)
        by (apply matchesRound_true; split; assumption).
      rewrite (proj1 (findRound_None roundId playId rounds) Hfind e He) in Hm.
      discriminate.
  - intros rounds Hs Hnone. rewrite Hs.
    assert (Hfind : findRound roundId playId rounds = None).
    { apply findRound_None. intros e He.
      destruct (matchesRound roundId playId e) eqn:Hm; [|reflexivity].
      apply matchesRound_true in Hm. now destruct (Hnone e He). }
    rewrite Hfind. repeat split; now destruct rounds.
Qed.

Lemma C3_GetPreviousResult_witness :
  let g := configured sampleLaunch (mkSetup None (Some []) (Some sampleRounds)) in
  outcome_of (GetPreviousResult (host := sampleHost) 9 9 g) = Ret (Str "{round:7,play:1}")
  /\ (exists e, In e sampleRounds
        /\ outcome_of (GetPreviousResult (host := sampleHost) 6 1 g)
           = Ret (Str (sampleStringify e))).
Proof.
  intro g.
  pose proof (C3_GetPreviousResult (host := sampleHost) g
                (mkSetup None (Some []) (Some sampleRounds)) 9 9 eq_refl)
    as (_ & _ & _ & Hmiss).
  pose proof (C3_GetPreviousResult (host := sampleHost) g
                (mkSetup None (Some []) (Some sampleRounds)) 6 1 eq_refl)
    as (_ & _ & Hhit & _).
  split.
  - destruct (Hmiss sampleRounds eq_refl) as (_ & _ & Hout).
    + intros e [<-|[<-|[<-|[]]]] [H _]; discriminate H.
    + exact Hout.
  - destruct (Hhit sampleRounds eq_refl) as (e & He & _ & _ & Hout & _).
    + exists (mkRound 6 1). split; [right; right; left; reflexivity | split; reflexivity].
    + exists e. split; [exact He | exact Hout].
Defined.

(** ** Receipt of the setup result *)

Section Receipt.
Context {host : Host}.

Lemma set_platformBetOption_same (result : ISetupResult) :
  set_platformBetOption (platformBetOption result) result = result.
Proof. now destruct result. Qed.

(** Storing the result and normalising its bet option never raises and
    leaves the normalised result in [_rgsConfig]. *)
Lemma store_and_normalize (result : ISetupResult) (g : GameSetup) :
  (modify (set_rgsConfig (Some result)) ;; parsePlatformBetOptions result) g
  = (Ret tt, set_rgsConfig (Some (normalized result)) g, parseTrace result).
Proof.
  unfold normalized, normalizedBetOption, parseTrace, parsePlatformBetOptions,
    withValue, present_betOption, bind, modify, get, emit, ret.
  cbn.
  destruct (platformBetOption result) as [|s|v] eqn:Hb; cbn.
  - unfold LastPlayState. cbn.
    destruct (roundStates result) as [[|e rounds]|]; cbn.
    + now rewrite <- Hb, set_platformBetOption_same.
    + reflexivity.
    + destruct (previousRoundState result); cbn; [reflexivity|].
      now rewrite <- Hb, set_platformBetOption_same.
  - destruct (JSON_parse s); cbn; [reflexivity|].
    now rewrite <- Hb, set_platformBetOption_same.
  - now rewrite <- Hb, set_platformBetOption_same.
Qed.

Lemma parseTrace_only_logs (result : ISetupResult) (e : Event) :
  In e (parseTrace result) -> exists msg, e = LogError msg.
Proof.
  unfold parseTrace.
  destruct (platformBetOption result) as [|s|v]; try (intros []).
  destruct (JSON_parse s) as [|msg]; [intros []|].
  intros [<-|[]]. now eexists.
Qed.

(** The whole run of the handler on a result without [denomConfigs]. *)
Lemma setupReceivedHandler_aborts (result : ISetupResult) (g : GameSetup) :
  denomConfigs result = None ->
  setupReceivedHandler (Some result) g
  = (Ret tt, set_rgsConfig (Some (normalized result)) g,
     parseTrace result ++ [LogError invalidSetupMessage]).
Proof.
  intros Hd.
  pose proof (store_and_normalize result g) as Hs.
  unfold setupReceivedHandler.
  unfold bind at 1 2. unfold bind in Hs at 1.
  destruct (modify (set_rgsConfig (Some result)) g) as [[o g1] t1].
  destruct o as [[]|e].
  - destruct (parsePlatformBetOptions result g1) as [[o2 g2] t2].
    injection Hs as -> -> Ht.
    unfold bind, get, emit. cbn. rewrite Hd. cbn.
    now rewrite app_assoc, Ht.
  - discriminate Hs.
Qed.

(** C2: on a non-null setup result without [denomConfigs] the handler
    returns normally, its last event is the error log, and its trace holds
    no listener invocation and no completion signal; the listener list is
    untouched. *)
Theorem C2_missing_denomConfigs_aborts (result : ISetupResult) (g : GameSetup) :
  denomConfigs result = None ->
  outcome_of (setupReceivedHandler (Some result) g) = Ret tt
  /\ trace_of (setupReceivedHandler (Some result) g)
     = parseTrace result ++ [LogError invalidSetupMessage]
  /\ (forall h, ~ In (HandlerInvoked h) (trace_of (setupReceivedHandler (Some result) g)))
  /\ (forall s, ~ In (CompleteState s) (trace_of (setupReceivedHandler (Some result) g)))
  /\ _onSetupCompleteHandlers (state_of (setupReceivedHandler (Some result) g))
     = _onSetupCompleteHandlers g.
Proof.
  intros Hd. rewrite (setupReceivedHandler_aborts result g Hd).
  unfold outcome_of, trace_of, state_of. cbn.
  repeat split.
  - intros h Hin. apply in_app_or in Hin. destruct Hin as [Hin|[Hin|[]]].
    + apply parseTrace_only_logs in Hin. destruct Hin as [msg Hmsg]. discriminate.
    + discriminate.
  - intros s Hin. apply in_app_or in Hin. destruct Hin as [Hin|[Hin|[]]].
    + apply parseTrace_only_logs in Hin. destruct Hin as [msg Hmsg]. discriminate.
    + discriminate.
Qed.

End Receipt.

(** ** Running the monad *)

Lemma bind_run {A B} (m : M A) (k : A -> M B) (g g1 : GameSetup) (a : A) (t1 : list Event) :
  m g = (Ret a, g1, t1) ->
  bind m k g = (outcome_of (k a g1), state_of (k a g1), t1 ++ trace_of (k a g1)).
Proof.
  intros H. unfold bind. rewrite H.
  now destruct (k a g1) as [[o g2] t2].
Qed.

Lemma bind_throw {A B} (m : M A) (k : A -> M B) (g g1 : GameSetup) (e : JsError)
    (t1 : list Event) :
  m g = (Throw e, g1, t1) -> bind m k g = (Throw e, g1, t1).
Proof.
  intros H. unfold bind. now rewrite H.
Qed.

Lemma bind_assoc {A B C} (m : M A) (f : A -> M B) (k : B -> M C) (g : GameSetup) :
  bind (bind m f) k g = bind m (fun a => bind (f a) k) g.
Proof.
  unfold bind.
  destruct (m g) as [[[a|e] g1] t1]; [|reflexivity].
  destruct (f a g1) as [[[b|e] g2] t2]; [|reflexivity].
  destruct (k b g2) as [[o g3] t3].
  now rewrite app_assoc.
Qed.

Lemma bind_get {B} (k : GameSetup -> M B) (g : GameSetup) :
  bind get k g = k g g.
Proof.
  unfold bind, get. now destruct (k g g) as [[o g2] t2].
Qed.

Lemma keeps_bind {A B} (m : M A) (k : A -> M B) :
  keeps_rgsConfig m -> (forall a, keeps_rgsConfig (k a)) -> keeps_rgsConfig (bind m k).
Proof.
  intros Hm Hk g. specialize (Hm g). unfold bind, state_of in *.
  destruct (m g) as [[[a|e] g1] t1]; cbn in *; [|assumption].
  specialize (Hk a g1). unfold state_of in Hk.
  destruct (k a g1) as [[o g2] t2]; cbn in *. congruence.
Qed.

Lemma keeps_ret {A} (a : A) : keeps_rgsConfig (ret a).
Proof. intro g. reflexivity. Qed.

Lemma keeps_get : keeps_rgsConfig get.
Proof. intro g. reflexivity. Qed.

Lemma keeps_emit (e : Event) : keeps_rgsConfig (emit e).
Proof. intro g. reflexivity. Qed.

Lemma keeps_lift {A} (f : GameSetup -> Outcome A) : keeps_rgsConfig (lift f).
Proof. intro g. reflexivity. Qed.

Lemma keeps_when (b : bool) (m : M unit) : keeps_rgsConfig m -> keeps_rgsConfig (when b m).
Proof. intros H. destruct b; [exact H | apply keeps_ret]. Qed.

Lemma keeps_modify (f : GameSetup -> GameSetup) :
  (forall g, _rgsConfig (f g) = _rgsConfig g) -> keeps_rgsConfig (modify f).
Proof. intros H g. apply H. Qed.

Create HintDb keeps.
#[local] Hint Resolve keeps_ret keeps_get keeps_emit keeps_lift keeps_when : keeps.

Ltac keeps_step :=
  first [ apply keeps_bind; [|intro]
        | apply keeps_modify; intro; reflexivity
        | solve [auto with keeps] ].

Section ReceiptOfValidResult.
Context {host : Host}.

Lemma keeps_forEachHandler (handlers : list Handler) :
  keeps_rgsConfig (forEachHandler handlers).
Proof.
  induction handlers as [|h rest IH]; cbn.
  - apply keeps_ret.
  - apply keeps_bind; [apply keeps_emit | intros _; exact IH].
Qed.

Lemma keeps_updateVersion : keeps_rgsConfig updateVersion.
Proof.
  apply keeps_bind; [apply keeps_get | intro g].
  destruct (versionObservable g); repeat keeps_step.
Qed.

Lemma keeps_updateAutoComplete : keeps_rgsConfig updateAutoComplete.
Proof.
  apply keeps_bind; [apply keeps_get | intro g].
  destruct (autoCompleteObservable g), (_rgsConfig g) as [r|]; repeat keeps_step.
  destruct (settings r) as [s|]; repeat keeps_step.
  destruct (juris s) as [j|]; repeat keeps_step.
  cbn zeta.
  destruct (autoCompleteDayFreq j =? autoCompleteDayMax j); repeat keeps_step.
Qed.

Lemma keeps_updateRtpDisplay : keeps_rgsConfig updateRtpDisplay.
Proof.
  apply keeps_bind; [apply keeps_get | intro g].
  destruct (rtpDisplayObservable g), (DenomConfigs g) as [configs|]; repeat keeps_step.
  cbn zeta.
  destruct (scale100 (low (rtpScan configs))); repeat keeps_step.
Qed.

Lemma keeps_updateObservables : keeps_rgsConfig updateObservables.
Proof.
  unfold updateObservables.
  apply keeps_bind; [apply keeps_updateVersion | intros _].
  apply keeps_bind; [apply keeps_updateAutoComplete | intros _].
  apply keeps_updateRtpDisplay.
Qed.

Lemma keeps_notifyAndComplete : keeps_rgsConfig notifyAndComplete.
Proof.
  unfold notifyAndComplete.
  apply keeps_bind; [apply keeps_get | intro g].
  apply keeps_bind; [apply keeps_forEachHandler | intros _].
  apply keeps_bind; [auto with keeps | intros _].
  apply keeps_bind; [apply keeps_updateObservables | intros _].
  repeat keeps_step.
Qed.

(** The run of the handler up to and including the display-option fix,
    for a result that passes the [denomConfigs] test. *)
Lemma setupReceivedHandler_valid (result : ISetupResult) (g : GameSetup)
    (d : list (string * IDenomConfig)) :
  denomConfigs result = Some d ->
  setupReceivedHandler (Some result) g
  = (let g1 := set_rgsConfig (Some (normalized result)) g in
     let rest := (fillDisplayOptions ;; notifyAndComplete) g1 in
     (outcome_of rest, state_of rest, parseTrace result ++ trace_of rest)).
Proof.
  intros Hd. unfold setupReceivedHandler.
  rewrite <- bind_assoc.
  rewrite (bind_run _ _ _ _ _ _ (store_and_normalize result g)).
  rewrite bind_get.
  cbn [_rgsConfig set_rgsConfig denomConfigs normalized set_platformBetOption].
  now rewrite Hd.
Qed.

(** With [denomConfigs] and [settings] both present, the handler leaves a
    setup result whose [uiDisplayOptions] is present: the one received, or
    the editor default when none was received. *)
Lemma uiDisplayOptions_present_after_receipt (result : ISetupResult) (g : GameSetup)
    (d : list (string * IDenomConfig)) (s : ISettings) :
  denomConfigs result = Some d ->
  settings result = Some s ->
  exists r' s',
    _rgsConfig (state_of (setupReceivedHandler (Some result) g)) = Some r'
    /\ settings r' = Some s'
    /\ uiDisplayOptions s'
       = Some (match uiDisplayOptions s with
               | Some received => received
               | None => displayOptions (_clientDefaults g)
               end).
Proof.
  intros Hd Hs. rewrite (setupReceivedHandler_valid result g d Hd).
  cbn zeta. unfold state_of at 1. cbn [fst snd].
  set (g1 := set_rgsConfig (Some (normalized result)) g).
  assert (Hfill : exists r' s',
             fillDisplayOptions g1 = (Ret tt, set_rgsConfig (Some r') g1, [])
             /\ settings r' = Some s'
             /\ uiDisplayOptions s'
                = Some (match uiDisplayOptions s with
                        | Some received => received
                        | None => displayOptions (_clientDefaults g)
                        end)).
  { unfold fillDisplayOptions, bind, get, modify, ret. cbn. rewrite Hs.
    destruct (uiDisplayOptions s) as [ui|] eqn:Hui; cbn.
    - exists (normalized result), s. split; [|split; [exact Hs | exact Hui]].
      now destruct g.
    - eexists _, _. split; [reflexivity | split; reflexivity]. }
  destruct Hfill as (r' & s' & Hfill & Hs' & Hui').
  exists r', s'. split; [|split; assumption].
  rewrite (bind_run _ _ _ _ _ _ Hfill). unfold state_of at 1. cbn [fst snd].
  now rewrite keeps_notifyAndComplete.
Qed.

(** With [denomConfigs] present and [settings] absent, the handler raises
    at the display-option fix: nothing is synthesised, no listener runs and
    completion is not signalled. *)
Lemma setupReceivedHandler_raises_without_settings (result : ISetupResult) (g : GameSetup)
    (d : list (string * IDenomConfig)) :
  denomConfigs result = Some d ->
  settings result = None ->
  setupReceivedHandler (Some result) g
  = (Throw (TypeError "settings is undefined"),
     set_rgsConfig (Some (normalized result)) g, parseTrace result).
Proof.
  intros Hd Hs. rewrite (setupReceivedHandler_valid result g d Hd).
  cbn zeta.
  assert (Hfill : fillDisplayOptions (set_rgsConfig (Some (normalized result)) g)
                  = (Throw (TypeError "settings is undefined"),
                     set_rgsConfig (Some (normalized result)) g, [])).
  { unfold fillDisplayOptions, bind, get, throw. cbn. now rewrite Hs. }
  rewrite (bind_throw _ _ _ _ _ _ Hfill).
  unfold outcome_of, state_of, trace_of. cbn. now rewrite app_nil_r.
Qed.
End ReceiptOfValidResult.

(** ** Receipt: concrete runs *)

Lemma C2_missing_denomConfigs_aborts_witness :
  let result := mkSetup (Some sampleSettings) None (Some sampleRounds) in
  let g := state_of (OnSetupReceived 1%nat (loaded sampleLaunch)) in
  denomConfigs result = None
  /\ _onSetupCompleteHandlers g = [1%nat]
  /\ outcome_of (setupReceivedHandler (host := sampleHost) (Some result) g) = Ret tt
  /\ trace_of (setupReceivedHandler (host := sampleHost) (Some result) g)
     = [LogError invalidSetupMessage].
Proof.
  intros result g.
  destruct (C2_missing_denomConfigs_aborts (host := sampleHost) result g eq_refl)
    as (Hout & Htrace & _).
  split; [reflexivity|]. split; [reflexivity|]. split; [exact Hout | exact Htrace].
Defined.

(** C4: a setup result with [denomConfigs] present and no [settings] record
    is accepted by the validation, and then the handler raises while trying
    to synthesise the display options: the stored result still has no
    [settings] (hence no [uiDisplayOptions]), the registered listener has
    not run and completion has not been signalled. *)
Theorem C4_absent_settings_raises :
  let result := mkSetup None (Some [("1", mkDenom (Some [9588]))]) None in
  let g := state_of (OnSetupReceived 1%nat (loaded sampleLaunch)) in
  let run := setupReceivedHandler (host := sampleHost) (Some result) g in
  outcome_of run = Throw (TypeError "settings is undefined")
  /\ (exists r', _rgsConfig (state_of run) = Some r' /\ settings r' = None)
  /\ trace_of run = [].
Proof.
  intros result g run.
  split; [reflexivity|]. split; [|reflexivity].
  eexists. split; reflexivity.
Qed.

(** ** RTP display *)

(** C5: with denom config "1" defining the empty RTP array and denom config
    "5" defining the array 9500, 9400, a config defines RTP values whose
    minimum is 9400 and maximum 9500, yet the scan ends with both bounds
    [undefined] and the display is blanked with the diagnostic; the same two
    configs visited in the other order give the range. *)
Theorem C5_empty_rtp_array_first_blanks_display :
  let emptyFirst := [("1", mkDenom (Some [])); ("5", mkDenom (Some [9500; 9400]))] in
  let emptyLast := [("5", mkDenom (Some [9500; 9400])); ("10", mkDenom (Some []))] in
  let g := configured sampleLaunch (mkSetup (Some sampleSettings) (Some emptyFirst) None) in
  let g' := configured sampleLaunch (mkSetup (Some sampleSettings) (Some emptyLast) None) in
  rtpScan emptyFirst = {| low := Undefined; high := Undefined; first := false |}
  /\ updateRtpDisplay (host := sampleHost) g
     = (Ret tt, set_rtpDisplayObservable (Some (Str "")) g,
        [LogInfo "No RTP configured for game."])
  /\ updateRtpDisplay (host := sampleHost) g'
     = (Ret tt, set_rtpDisplayObservable (Some (Str "RTP 94.00% - 95.00%")) g', []).
Proof.
  repeat split.
Qed.

Lemma insert_asc_perm (x : Z) (l : list Z) : Permutation (insert_asc x l) (x :: l).
Proof.
  induction l as [|y l IH]; cbn; [reflexivity|].
  destruct (x <=? y); [reflexivity|].
  rewrite IH. apply perm_swap.
Qed.

Lemma sort_asc_perm (l : list Z) : Permutation (sort_asc l) l.
Proof.
  induction l as [|x l IH]; cbn; [reflexivity|].
  fold (sort_asc l). rewrite insert_asc_perm. now constructor.
Qed.

Lemma insert_asc_sorted (x : Z) (l : list Z) :
  Sorted Z.le l -> Sorted Z.le (insert_asc x l).
Proof.
  induction l as [|y l IH]; intros Hs; cbn.
  - repeat constructor.
  - destruct (Z.leb_spec x y) as [Hxy|Hxy].
    + constructor; [assumption|]. constructor. assumption.
    + inversion Hs as [|? ? Hl Hhd]; subst. constructor; [now apply IH|].
      destruct l as [|z l]; cbn.
      * constructor. lia.
      * inversion Hhd; subst. destruct (x <=? z); constructor; lia.
Qed.

Lemma sort_asc_sorted (l : list Z) : StronglySorted Z.le (sort_asc l).
Proof.
  apply Sorted_StronglySorted; [intros a b c; apply Z.le_trans|].
  induction l as [|x l IH]; cbn; [constructor|].
  now apply insert_asc_sorted.
Qed.

Lemma StronglySorted_last_is_max (l : list Z) (a : Z) :
  StronglySorted Z.le (l ++ [a]) -> Forall (fun x => x <= a) (l ++ [a]).
Proof.
  induction l as [|x l IH]; cbn; intros Hs.
  - repeat constructor. lia.
  - apply StronglySorted_inv in Hs. destruct Hs as [Hs Hall].
    constructor; [|now apply IH].
    rewrite Forall_forall in Hall. apply Hall, in_or_app. right. now left.
Qed.

Lemma is_min_perm (m : Z) (l l' : list Z) : Permutation l l' -> is_min m l -> is_min m l'.
Proof.
  intros Hp [Hin Hall]. split.
  - now apply (Permutation_in _ Hp).
  - now apply (Permutation_Forall Hp).
Qed.

Lemma is_max_perm (M : Z) (l l' : list Z) : Permutation l l' -> is_max M l -> is_max M l'.
Proof.
  intros Hp [Hin Hall]. split.
  - now apply (Permutation_in _ Hp).
  - now apply (Permutation_Forall Hp).
Qed.

(** Element 0 of the sorted copy of a non-empty array is its minimum. *)
Lemma sorted_first_is_min (values : list Z) :
  values <> [] -> exists m, js_index (sort_asc values) 0 = Val m /\ is_min m values.
Proof.
  intros Hne.
  pose proof (sort_asc_perm values) as Hp.
  pose proof (sort_asc_sorted values) as Hs.
  destruct (sort_asc values) as [|m rest].
  - apply Permutation_nil in Hp. contradiction.
  - exists m. split; [reflexivity|].
    apply (is_min_perm _ _ _ Hp).
    apply StronglySorted_inv in Hs. destruct Hs as [_ Hall].
    split; [now left|]. constructor; [lia | exact Hall].
Qed.

(** Its last element is the maximum. *)
Lemma sorted_last_is_max (values : list Z) :
  values <> [] ->
  exists M, js_index (sort_asc values) (Z.of_nat (List.length (sort_asc values)) - 1) = Val M
            /\ is_max M values.
Proof.
  intros Hne.
  pose proof (sort_asc_perm values) as Hp.
  pose proof (sort_asc_sorted values) as Hs.
  destruct (exists_last (l := sort_asc values)) as (front & M & Heq).
  - intros Hnil. rewrite Hnil in Hp. apply Permutation_nil in Hp. contradiction.
  - rewrite Heq in *. exists M. split.
    + unfold js_index. rewrite length_app. cbn [List.length].
      replace (Z.of_nat (List.length front + 1) - 1) with (Z.of_nat (List.length front)) by lia.
      destruct (Z.ltb_spec (Z.of_nat (List.length front)) 0) as [Hlt|_]; [lia|].
      rewrite Nat2Z.id, nth_error_app2, Nat.sub_diag by lia. reflexivity.
    + apply (is_max_perm _ _ _ Hp). split.
      * apply in_or_app. right. now left.
      * now apply StronglySorted_last_is_max.
Qed.

Lemma rtpStep_inv (acc : RtpScan) (seen : list Z) (entry : string * IDenomConfig) :
  rtp (snd entry) <> Some [] ->
  scan_inv acc seen ->
  scan_inv (rtpStep acc entry)
           (seen ++ match rtp (snd entry) with Some values => values | None => [] end).
Proof.
  intros Hne Hinv. unfold rtpStep.
  destruct (rtp (snd entry)) as [values|]; [|now rewrite app_nil_r].
  assert (Hv : values <> []) by congruence.
  destruct (sorted_first_is_min values Hv) as (a & Ha & Hmin).
  destruct (sorted_last_is_max values Hv) as (b & Hb & Hmax).
  cbv zeta. rewrite Ha, Hb.
  destruct Hinv as [[Hfirst ->]|(Hfirst & m & M & Hlow & Hhigh & Hm & HM)];
    rewrite Hfirst; right; cbn [first low high].
  - split; [reflexivity|]. now exists a, b.
  - split; [reflexivity|]. rewrite Hlow, Hhigh.
    unfold js_gt, js_lt. cbn [toNumber].
    destruct Hmin as [Hain Haall], Hmax as [Hbin Hball],
             Hm as [Hmin Hmall], HM as [HMin HMall].
    exists (if a <? m then a else m), (if M <? b then b else M).
    split; [now destruct (a <? m)|]. split; [now destruct (M <? b)|].
    split; split.
    + apply in_or_app. destruct (a <? m); [now right | now left].
    + apply Forall_app. split.
      * eapply Forall_impl; [|exact Hmall]. cbn. intros x Hx.
        destruct (Z.ltb_spec a m); lia.
      * eapply Forall_impl; [|exact Haall]. cbn. intros x Hx.
        destruct (Z.ltb_spec a m); lia.
    + apply in_or_app. destruct (M <? b); [now right | now left].
    + apply Forall_app. split.
      * eapply Forall_impl; [|exact HMall]. cbn. intros x Hx.
        destruct (Z.ltb_spec M b); lia.
      * eapply Forall_impl; [|exact Hball]. cbn. intros x Hx.
        destruct (Z.ltb_spec M b); lia.
Qed.

Lemma rtpScan_inv (configs : list (string * IDenomConfig)) (acc : RtpScan) (seen : list Z) :
  Forall (fun entry => rtp (snd entry) <> Some []) configs ->
  scan_inv acc seen ->
  scan_inv (fold_left rtpStep configs acc) (seen ++ definedValues configs).
Proof.
  revert acc seen.
  induction configs as [|entry configs IH]; intros acc seen Hall Hinv; cbn.
  - now rewrite app_nil_r.
  - inversion Hall as [|? ? Hentry Hrest]; subst.
    rewrite app_assoc. apply IH; [assumption|].
    now apply rtpStep_inv.
Qed.

(** When no defined RTP array is empty and some value is defined, the scan
    ends with the least and the greatest of all the defined values. *)
Lemma rtpScan_bounds (configs : list (string * IDenomConfig)) :
  Forall (fun entry => rtp (snd entry) <> Some []) configs ->
  definedValues configs <> [] ->
  exists m M, low (rtpScan configs) = Val m /\ high (rtpScan configs) = Val M
              /\ is_min m (definedValues configs) /\ is_max M (definedValues configs).
Proof.
  intros Hall Hne.
  destruct (rtpScan_inv configs {| low := Null; high := Null; first := true |} [] Hall)
    as [[_ Hnil]|(_ & m & M & H)].
  - left. split; reflexivity.
  - cbn in Hnil. contradiction.
  - exists m, M. exact H.
Qed.

(** When no denom config defines an RTP array, the scan keeps its initial
    [null] bounds. *)
Lemma rtpScan_undefined (configs : list (string * IDenomConfig)) :
  Forall (fun entry => rtp (snd entry) = None) configs ->
  rtpScan configs = {| low := Null; high := Null; first := true |}.
Proof.
  unfold rtpScan. generalize {| low := Null; high := Null; first := true |}.
  induction configs as [|entry configs IH]; intros acc Hall; cbn; [reflexivity|].
  inversion Hall as [|? ? Hentry Hrest]; subst.
  unfold rtpStep at 2. rewrite Hentry. now apply IH.
Qed.

Lemma is_min_unique (m m' : Z) (l : list Z) : is_min m l -> is_min m' l -> m = m'.
Proof.
  intros [Hin Hall] [Hin' Hall']. rewrite Forall_forall in Hall, Hall'.
  specialize (Hall _ Hin'). specialize (Hall' _ Hin). lia.
Qed.

Lemma is_max_unique (M M' : Z) (l : list Z) : is_max M l -> is_max M' l -> M = M'.
Proof.
  intros [Hin Hall] [Hin' Hall']. rewrite Forall_forall in Hall, Hall'.
  specialize (Hall _ Hin'). specialize (Hall' _ Hin). lia.
Qed.

Lemma scale100_Val (z : Z) : scale100 (Val z) = Val (scaled z).
Proof.
  unfold scale100, scaled, truthy_num. now destruct (z =? 0).
Qed.

Lemma scaled_eq (a b : Z) : Qeq_bool (scaled a) (scaled b) = (a =? b).
Proof.
  apply eq_true_iff_eq. rewrite Qeq_bool_iff, Z.eqb_eq.
  unfold scaled, Qeq.
  destruct (Z.eqb_spec a 0), (Z.eqb_spec b 0); cbn; lia.
Qed.

Lemma percent_scaled (z : Z) : percent (scaled z) = percent (z # 100).
Proof.
  unfold scaled. destruct (Z.eqb_spec z 0) as [->|_]; reflexivity.
Qed.

Example percent_9588 : percent (9588 # 100) = "95.88%".
Proof. reflexivity. Qed.

Section RtpDisplay.
Context {host : Host}.

(** With the observable attached and no defined RTP array empty, the
    display is built from the global minimum and maximum of the defined
    values, each divided by 100 and written with two decimals. *)
Lemma updateRtpDisplay_range (g : GameSetup) (o : Observable)
    (configs : list (string * IDenomConfig)) (m M : Z) :
  rtpDisplayObservable g = Some o ->
  DenomConfigs g = Some configs ->
  Forall (fun entry => rtp (snd entry) <> Some []) configs ->
  is_min m (definedValues configs) ->
  is_max M (definedValues configs) ->
  updateRtpDisplay g
  = (Ret tt,
     set_rtpDisplayObservable (Some (Str (rtpDisplayText (_localRef g) m M))) g, []).
Proof.
  intros Ho Hc Hall Hm HM.
  assert (Hne : definedValues configs <> []).
  { destruct Hm as [Hin _]. intros Hnil. now rewrite Hnil in Hin. }
  destruct (rtpScan_bounds configs Hall Hne) as (m' & M' & Hlow & Hhigh & Hm' & HM').
  rewrite (is_min_unique _ _ _ Hm' Hm) in Hlow.
  rewrite (is_max_unique _ _ _ HM' HM) in Hhigh.
  unfold updateRtpDisplay. rewrite bind_get, Ho, Hc. cbv zeta.
  rewrite Hlow, Hhigh, !scale100_Val.
  unfold bind, lift, modify, rtpText, rtpDisplayText, js_strict_neq.
  rewrite scaled_eq, !percent_scaled.
  destruct (m =? M); cbn; reflexivity.
Qed.

(** With the observable attached and no denom config defining an RTP
    array, the display is the empty string and the diagnostic is logged. *)
Lemma updateRtpDisplay_blank (g : GameSetup) (o : Observable)
    (configs : list (string * IDenomConfig)) :
  rtpDisplayObservable g = Some o ->
  DenomConfigs g = Some configs ->
  Forall (fun entry => rtp (snd entry) = None) configs ->
  updateRtpDisplay g
  = (Ret tt, set_rtpDisplayObservable (Some (Str "")) g,
     [LogInfo "No RTP configured for game."]).
Proof.
  intros Ho Hc Hall.
  unfold updateRtpDisplay. rewrite bind_get, Ho, Hc. cbv zeta.
  rewrite (rtpScan_undefined configs Hall). reflexivity.
Qed.
End RtpDisplay.

(** * Further properties *)

(** ** Display policy *)

Lemma ShouldDisplay_lobby_returns {host : Host} (g : GameSetup) :
  exists answer, ShouldDisplay g Key_Lobby = Ret answer.
Proof.
  unfold ShouldDisplay.
  destruct (_rgsConfig g) as [r|] eqn:Hr; [|now eexists].
  destruct (settings r) as [s|] eqn:Hs; [|now eexists].
  destruct (uiDisplayOptions s) as [ui|]; [|now eexists].
  destruct (lobby ui); [|now eexists].
  unfold HasLobbyURL. rewrite Hr, Hs.
  destruct (match _clientConfig g with
            | Some c => truthy_string (lobbyUrl c)
            | None => false
            end); cbn.
  - destruct (String.eqb (lobbyExclusion ui) "web"); [now eexists|].
    destruct (String.eqb (lobbyExclusion ui) "webview"); now eexists.
  - destruct (truthy_string (s_lobbyUrl s)); cbn; [|now eexists].
    destruct (String.eqb (lobbyExclusion ui) "web"); [now eexists|].
    destruct (String.eqb (lobbyExclusion ui) "webview"); now eexists.
Qed.

(** X1: [ShouldDisplay] raises in one situation only: for the recall key,
    when display options are present and their [recall] member is absent.
    For every other key it returns on every component; in particular the
    unguarded read in [HasLobbyURL] is reached only behind the test that
    [settings] is present. *)
Theorem ShouldDisplay_raises_only_for_recall {host : Host}
    (g : GameSetup) (key : DisplayKey) :
  (exists e, ShouldDisplay g key = Throw e)
  <-> (key = Key_Recall
       /\ exists r s ui, _rgsConfig g = Some r /\ settings r = Some s
            /\ uiDisplayOptions s = Some ui /\ do_recall ui = None).
Proof.
  split.
  - intros [e He].
    destruct key;
      try (destruct (ShouldDisplay_lobby_returns g) as [answer Ha];
           rewrite Ha in He; discriminate He);
      unfold ShouldDisplay in He;
      destruct (_rgsConfig g) as [r|] eqn:Hr; try discriminate He;
      destruct (settings r) as [s|] eqn:Hs; try discriminate He;
      destruct (uiDisplayOptions s) as [ui|] eqn:Hui; try discriminate He.
    destruct (do_recall ui) eqn:Hrecall; [discriminate He|].
    split; [reflexivity|]. now exists r, s, ui.
  - intros (-> & r & s & ui & Hr & Hs & Hui & Hrecall).
    unfold ShouldDisplay. rewrite Hr, Hs, Hui, Hrecall. now eexists.
Qed.

Lemma ShouldDisplay_raises_only_for_recall_witness :
  let g := configured sampleLaunch
             (mkSetup (Some (set_uiDisplayOptions (Some optionsWithoutRecall) sampleSettings))
                      (Some []) None) in
  (exists e, ShouldDisplay (host := sampleHost) g Key_Recall = Throw e)
  /\ ShouldDisplay (host := sampleHost) g Key_Lobby = Ret (Some false)
  /\ RecallHistory g = Ret 10.
Proof.
  intro g. split; [|split; reflexivity].
  apply (proj2 (ShouldDisplay_raises_only_for_recall (host := sampleHost) g Key_Recall)).
  split; [reflexivity|].
  eexists _, _, _. repeat split.
Defined.

(** X2: in a recall session the server time, the session time, the game
    information and the demo control are hidden, whatever their flags say. *)
Theorem recall_hides_live_displays {host : Host} (g : GameSetup) :
  Recall g = true ->
  ShouldDisplay g Key_ServerTime = Ret (Some false)
  /\ ShouldDisplay g Key_SessionTime = Ret (Some false)
  /\ ShouldDisplay g Key_GameInfo = Ret (Some false)
  /\ ShouldDisplay g Key_Demo = Ret (Some false).
Proof.
  intros Hrecall. unfold ShouldDisplay. rewrite Hrecall.
  destruct (_rgsConfig g) as [r|]; [|repeat split].
  destruct (settings r) as [s|]; [|repeat split].
  destruct (uiDisplayOptions s) as [ui|]; [|repeat split].
  cbn. rewrite !andb_false_r. repeat split.
Qed.

Lemma recall_hides_live_displays_witness :
  let g := configured recallLaunch (mkSetup (Some fullSettings) (Some []) None) in
  serverTime lobbyOptions = true
  /\ ShouldDisplay (host := sampleHost) g Key_ServerTime = Ret (Some false)
  /\ ShouldDisplay (host := sampleHost) (configured sampleLaunch
        (mkSetup (Some fullSettings) (Some []) None)) Key_ServerTime = Ret (Some true).
Proof.
  intro g.
  destruct (recall_hides_live_displays (host := sampleHost) g eq_refl) as (H & _).
  split; [reflexivity|]. split; [exact H | reflexivity].
Defined.

(** X3: with the lobby flag set and a lobby URL present, the exclusion mode
    decides: "web" shows the lobby only inside a web view, "webview" only
    outside one, and any other mode always shows it. *)
Theorem lobby_exclusion_table {host : Host}
    (g : GameSetup) (r : ISetupResult) (s : ISettings) (ui : DisplayOptions) :
  _rgsConfig g = Some r -> settings r = Some s -> uiDisplayOptions s = Some ui ->
  lobby ui = true -> HasLobbyURL g = Ret true ->
  ShouldDisplay g Key_Lobby
  = Ret (Some (if String.eqb (lobbyExclusion ui) "web" then IsWebView
               else if String.eqb (lobbyExclusion ui) "webview" then negb IsWebView
               else true)).
Proof.
  intros Hr Hs Hui Hflag Hurl. unfold ShouldDisplay.
  rewrite Hr, Hs, Hui, Hflag, Hurl. cbn.
  destruct (String.eqb (lobbyExclusion ui) "web"); [now destruct IsWebView|].
  destruct (String.eqb (lobbyExclusion ui) "webview"); [now destruct IsWebView|].
  reflexivity.
Qed.

Lemma lobby_exclusion_table_witness :
  let r := mkSetup (Some fullSettings) (Some []) None in
  let g := configured recallLaunch r in
  IsWebView (host := decodingHost) = true
  /\ IsWebView (host := sampleHost) = false
  /\ ShouldDisplay (host := decodingHost) g Key_Lobby = Ret (Some false)
  /\ ShouldDisplay (host := sampleHost) g Key_Lobby = Ret (Some true).
Proof.
  intros r g.
  pose proof (lobby_exclusion_table (host := decodingHost) g r fullSettings lobbyOptions
                eq_refl eq_refl eq_refl eq_refl eq_refl) as Hin.
  pose proof (lobby_exclusion_table (host := sampleHost) g r fullSettings lobbyOptions
                eq_refl eq_refl eq_refl eq_refl eq_refl) as Hout.
  split; [reflexivity|]. split; [reflexivity|]. split; [exact Hin | exact Hout].
Defined.

(** X4: once display options are present, exactly one of the social and the
    for-wager displays is shown, and it is the one of [GameStyle]. *)
Theorem social_and_wager_are_complementary {host : Host}
    (g : GameSetup) (r : ISetupResult) (s : ISettings) (ui : DisplayOptions) :
  _rgsConfig g = Some r -> settings r = Some s -> uiDisplayOptions s = Some ui ->
  exists shown,
    ShouldDisplay g Key_Social = Ret (Some shown)
    /\ ShouldDisplay g Key_ForWager = Ret (Some (negb shown))
    /\ (shown = true <-> GameStyle g = Social).
Proof.
  intros Hr Hs Hui. unfold ShouldDisplay. rewrite Hr, Hs, Hui.
  destruct (GameStyle g).
  - exists true. repeat split.
  - exists false. repeat split; discriminate.
Qed.

Lemma social_and_wager_are_complementary_witness :
  let r := mkSetup (Some fullSettings) (Some []) None in
  let g := configured sampleLaunch r in
  exists shown,
    ShouldDisplay (host := sampleHost) g Key_Social = Ret (Some shown)
    /\ ShouldDisplay (host := sampleHost) g Key_ForWager = Ret (Some (negb shown)).
Proof.
  intros r g.
  destruct (social_and_wager_are_complementary (host := sampleHost) g r fullSettings
              lobbyOptions eq_refl eq_refl eq_refl) as (shown & H1 & H2 & _).
  exists shown. split; assumption.
Defined.

(** X5: whenever the [AutoSpinType] getter answers [Standard] or [Extended],
    [ShouldDisplay] shows the auto-spin control. *)
Theorem autospin_type_implies_display {host : Host} (g : GameSetup) :
  get_AutoSpinType g <> AutoSpin_None ->
  ShouldDisplay g Key_AutoSpin = Ret (Some true).
Proof.
  unfold get_AutoSpinType, ShouldDisplay.
  destruct (_rgsConfig g) as [r|]; [|intros H; now destruct H].
  destruct (settings r) as [s|]; [|intros H; now destruct H].
  destruct (uiDisplayOptions s) as [ui|]; [|intros H; now destruct H].
  destruct (String.eqb (ap_type (autoSpin ui)) "none"); [intros H; now destruct H|].
  reflexivity.
Qed.

Lemma autospin_type_implies_display_witness :
  let g := configured sampleLaunch (mkSetup (Some fullSettings) (Some []) None) in
  get_AutoSpinType g = AutoSpin_Standard
  /\ ShouldDisplay (host := sampleHost) g Key_AutoSpin = Ret (Some true).
Proof.
  intro g. split; [reflexivity|].
  apply (autospin_type_implies_display (host := sampleHost) g). discriminate.
Defined.

(** ** Recall markers and lobby URL *)

(** X6: a defined [PlayID] implies a recall session with a non-zero play id;
    a recall session without a [PlayID] is one launched with [recall: 0]. *)
Theorem PlayID_and_Recall (g : GameSetup) :
  (forall p, PlayID g = Some p -> Recall g = true /\ p <> 0)
  /\ (Recall g = true -> PlayID g = None ->
      exists c, _clientConfig g = Some c /\ recall c = Some 0).
Proof.
  unfold PlayID, Recall.
  destruct (_clientConfig g) as [c|]; [|split; [discriminate | discriminate]].
  destruct (recall c) as [p0|] eqn:Hrecall; [|split; [discriminate | discriminate]].
  destruct (Z.eqb_spec p0 0) as [->|Hne]; split.
  - discriminate.
  - intros _ _. exists c. now split.
  - intros p Hp. injection Hp as <-. now split.
  - discriminate.
Qed.

Lemma PlayID_and_Recall_witness :
  Recall (loaded recallLaunch) = true /\ (42 <> 0).
Proof.
  apply (proj1 (PlayID_and_Recall (loaded recallLaunch)) 42). reflexivity.
Defined.

(** X7: once settings have been received, [HasLobbyURL] answers [true]
    exactly when [LobbyURL] is a non-empty string; the page location is not
    consulted any more. *)
Theorem HasLobbyURL_agrees_with_LobbyURL
    (href : string) (g : GameSetup) (r : ISetupResult) (s : ISettings) :
  _rgsConfig g = Some r -> settings r = Some s ->
  HasLobbyURL g = Ret (truthy_string (LobbyURL href g)).
Proof.
  intros Hr Hs. unfold HasLobbyURL, LobbyURL. rewrite Hr, Hs.
  destruct (_clientConfig g) as [c|].
  - destruct (truthy_string (lobbyUrl c)) eqn:Hc.
    + now rewrite Hc.
    + now destruct (truthy_string (s_lobbyUrl s)).
  - now destruct (truthy_string (s_lobbyUrl s)).
Qed.

Lemma HasLobbyURL_agrees_with_LobbyURL_witness :
  let r := mkSetup (Some fullSettings) (Some []) None in
  HasLobbyURL (configured sampleLaunch r) = Ret false
  /\ LobbyURL "https://game.example/" (configured sampleLaunch r) = None
  /\ HasLobbyURL (configured recallLaunch r) = Ret true.
Proof.
  intro r.
  pose proof (HasLobbyURL_agrees_with_LobbyURL "https://game.example/"
                (configured sampleLaunch r) r fullSettings eq_refl eq_refl) as H1.
  pose proof (HasLobbyURL_agrees_with_LobbyURL "https://game.example/"
                (configured recallLaunch r) r fullSettings eq_refl eq_refl) as H2.
  split; [exact H1|]. split; [reflexivity | exact H2].
Defined.

(** ** Previous results and the last play *)

(** X8: with a non-empty round history [GetPreviousResult] always returns
    the serialization of an entry of the history, never [null] or
    [undefined], and leaves the component as it was. *)
Theorem GetPreviousResult_returns_an_entry {host : Host}
    (g : GameSetup) (r : ISetupResult) (rounds : list IPlayState) (roundId playId : Z) :
  _rgsConfig g = Some r -> roundStates r = Some rounds -> rounds <> [] ->
  state_of (GetPreviousResult roundId playId g) = g
  /\ exists e, In e rounds
       /\ outcome_of (GetPreviousResult roundId playId g) = Ret (Str (JSON_stringify e)).
Proof.
  intros Hr Hs Hne.
  unfold GetPreviousResult. rewrite bind_get, Hr, Hs.
  destruct (findRound roundId playId rounds) as [found|] eqn:Hfind.
  - split; [reflexivity|]. exists found. split; [|reflexivity].
    now apply findRound_Some in Hfind.
  - destruct rounds as [|e0 rest]; [contradiction|].
    split; [reflexivity|]. exists e0. split; [now left|].
    unfold bind, emit, ret, outcome_of, LastPlayState. cbn. now rewrite Hr, Hs.
Qed.

Lemma GetPreviousResult_returns_an_entry_witness :
  let r := mkSetup None (Some []) (Some sampleRounds) in
  exists e, In e sampleRounds
    /\ outcome_of (GetPreviousResult (host := sampleHost) 1 1 (configured sampleLaunch r))
       = Ret (Str (sampleStringify e)).
Proof.
  intro r.
  destruct (GetPreviousResult_returns_an_entry (host := sampleHost)
              (configured sampleLaunch r) r sampleRounds 1 1 eq_refl eq_refl)
    as [_ H]; [discriminate | exact H].
Defined.

(** X9: when the most recent play state carries the same number as [playId]
    and as [GamePlayIndex], asking [GetPreviousResult] for [CurrentRound] and
    [CurrentPlay] finds an entry with the round and index of
    [LastPlayState] and logs nothing. *)
Theorem current_play_is_found {host : Host}
    (g : GameSetup) (r : ISetupResult) (e0 : IPlayState) (rest : list IPlayState) :
  _rgsConfig g = Some r -> roundStates r = Some (e0 :: rest) ->
  playId (playResult e0) = GamePlayIndex (playResult e0) ->
  exists roundId play e,
    CurrentRound g = Ret (Val roundId) /\ CurrentPlay g = Ret (Val play)
    /\ In e (e0 :: rest)
    /\ PlaySequenceNumber (playResult e) = PlaySequenceNumber (playResult e0)
    /\ GamePlayIndex (playResult e) = GamePlayIndex (playResult e0)
    /\ GetPreviousResult roundId play g = (Ret (Str (JSON_stringify e)), g, []).
Proof.
  intros Hr Hs Hid.
  exists (PlaySequenceNumber (playResult e0)), (playId (playResult e0)).
  assert (Hlast : LastPlayState g = Val e0) by (unfold LastPlayState; now rewrite Hr, Hs).
  destruct (findRound (PlaySequenceNumber (playResult e0)) (playId (playResult e0))
              (e0 :: rest)) as [found|] eqn:Hfind.
  - exists found.
    pose proof (findRound_Some _ _ _ _ Hfind) as [Hin Hm].
    apply matchesRound_true in Hm. destruct Hm as [Hm1 Hm2].
    unfold CurrentRound, CurrentPlay. rewrite Hr, Hlast.
    repeat split; try assumption; try congruence.
    unfold GetPreviousResult. now rewrite bind_get, Hr, Hs, Hfind.
  - exfalso.
    pose proof (proj1 (findRound_None _ _ _) Hfind e0 (or_introl eq_refl)) as Hno.
    assert (Hyes : matchesRound (PlaySequenceNumber (playResult e0))
                     (playId (playResult e0)) e0 = true)
      by (apply matchesRound_true; split; congruence).
    congruence.
Qed.

Lemma current_play_is_found_witness :
  let r := mkSetup None (Some []) (Some sampleRounds) in
  let g := configured sampleLaunch r in
  CurrentRound g = Ret (Val 7)
  /\ exists roundId play e,
       GetPreviousResult (host := sampleHost) roundId play g
       = (Ret (Str (sampleStringify e)), g, []).
Proof.
  intros r g. split; [reflexivity|].
  destruct (current_play_is_found (host := sampleHost) g r (mkRound 7 1)
              [mkRound 6 2; mkRound 6 1] eq_refl eq_refl eq_refl)
    as (roundId & play & e & _ & _ & _ & _ & _ & H).
  now exists roundId, play, e.
Defined.

(** ** Listener list *)

(** X10: [OffSetupReceived] of a handler that is not registered unregisters
    every handler. *)
Theorem OffSetupReceived_of_stranger_empties (h : Handler) (g : GameSetup) :
  ~ In h (_onSetupCompleteHandlers g) ->
  _onSetupCompleteHandlers (state_of (OffSetupReceived h g)) = [].
Proof.
  intros Hnot. rewrite OffSetupReceived_keeps_only.
  induction (_onSetupCompleteHandlers g) as [|k rest IH]; [reflexivity|].
  cbn. destruct (Nat.eqb_spec k h) as [->|_].
  - exfalso. apply Hnot. now left.
  - apply IH. intros Hin. apply Hnot. now right.
Qed.

Lemma OffSetupReceived_of_stranger_empties_witness :
  let g := state_of (OnSetupReceived 2%nat
             (state_of (OnSetupReceived 1%nat (new_GameSetup true false)))) in
  _onSetupCompleteHandlers g = [1; 2]%nat
  /\ _onSetupCompleteHandlers (state_of (OffSetupReceived 9%nat g)) = [].
Proof.
  intro g. split; [reflexivity|].
  apply (OffSetupReceived_of_stranger_empties 9%nat g).
  intros [H|[H|[]]]; discriminate H.
Defined.

(** ** Setup request *)

Lemma bind_seq {A B} (m : M A) (k : A -> M B) (g g1 g2 : GameSetup) (a : A)
    (o : Outcome B) (t1 t2 : list Event) :
  m g = (Ret a, g1, t1) -> k a g1 = (o, g2, t2) -> bind m k g = (o, g2, t1 ++ t2).
Proof.
  intros Hm Hk. unfold bind. now rewrite Hm, Hk.
Qed.

(** X11: on the trigger state, with the communicator resolved, exactly one
    request is issued: the recall request when the launch configuration
    carries a recall play id or a platform round id, the standard request
    when it carries neither; any other state issues nothing. The component
    is left as it was. *)
Theorem one_request_per_trigger (g : GameSetup) (c : IClientConfig) :
  _clientConfig g = Some c -> _communicatorRef g = true ->
  (forall event, event <> _setupOnState g ->
     onStateChangeHandler event g = (Ret tt, g, []))
  /\ (recall c = None -> platformRecallRoundId c = None ->
        onStateChangeHandler (_setupOnState g) g = (Ret tt, g, [RequestSetup]))
  /\ (recall c <> None \/ platformRecallRoundId c <> None ->
        onStateChangeHandler (_setupOnState g) g = (Ret tt, g, [RequestRecallSetup])).
Proof.
  intros Hc Hcomm.
  unfold onStateChangeHandler, requestSetup, Recall, PlatformRecallRoundID.
  split; [|split].
  - intros event Hne. rewrite bind_get.
    apply Nat.eqb_neq in Hne. now rewrite Hne.
  - intros Hrecall Hround.
    rewrite bind_get, Nat.eqb_refl. cbn [when].
    now rewrite bind_get, Hcomm, Hc, Hrecall, Hround.
  - intros Hsome.
    rewrite bind_get, Nat.eqb_refl. cbn [when].
    rewrite bind_get, Hcomm, Hc.
    destruct (recall c), (platformRecallRoundId c); try reflexivity.
    destruct Hsome as [H|H]; now destruct H.
Qed.

Lemma one_request_per_trigger_witness :
  onStateChangeHandler 0%nat (loaded sampleLaunch)
  = (Ret tt, loaded sampleLaunch, [RequestSetup])
  /\ onStateChangeHandler 0%nat (loaded recallLaunch)
     = (Ret tt, loaded recallLaunch, [RequestRecallSetup]).
Proof.
  destruct (one_request_per_trigger (loaded sampleLaunch) sampleLaunch
              eq_refl eq_refl) as (_ & Hstd & _).
  destruct (one_request_per_trigger (loaded recallLaunch) recallLaunch
              eq_refl eq_refl) as (_ & _ & Hrec).
  split.
  - apply Hstd; reflexivity.
  - apply Hrec. left. discriminate.
Defined.

(** ** Observables *)

Lemma only_observables_refl (g : GameSetup) : only_observables g g.
Proof. repeat split. Qed.

Lemma only_observables_trans (a b c : GameSetup) :
  only_observables a b -> only_observables b c -> only_observables a c.
Proof.
  unfold only_observables. intros H1 H2.
  repeat match goal with H : _ /\ _ |- _ => destruct H end.
  repeat split; congruence.
Qed.

(** Element 0 and the last element of an array are both missing or both
    there. *)
Lemma index_bounds_shape (l : list Z) :
  (js_index l 0 = Undefined /\ js_index l (Z.of_nat (List.length l) - 1) = Undefined)
  \/ (exists a b, js_index l 0 = Val a /\ js_index l (Z.of_nat (List.length l) - 1) = Val b).
Proof.
  destruct l as [|x r]; [left; split; reflexivity|].
  right. exists x. unfold js_index at 2.
  cbn [List.length].
  replace (Z.of_nat (S (List.length r)) - 1) with (Z.of_nat (List.length r)) by lia.
  destruct (Z.ltb_spec (Z.of_nat (List.length r)) 0) as [Hlt|_]; [lia|].
  rewrite Nat2Z.id.
  destruct (nth_error (x :: r) (List.length r)) as [b|] eqn:Hnth.
  - exists b. split; reflexivity.
  - apply nth_error_None in Hnth. cbn in Hnth. lia.
Qed.

Lemma rtpStep_shape (acc : RtpScan) (entry : string * IDenomConfig) :
  scan_shape acc -> scan_shape (rtpStep acc entry).
Proof.
  intros Hacc. unfold rtpStep.
  destruct (rtp (snd entry)) as [values|]; [|exact Hacc].
  cbv zeta.
  destruct (index_bounds_shape (sort_asc values)) as [[Hlo Hhi]|(a & b & Hlo & Hhi)];
    rewrite Hlo, Hhi;
    destruct Hacc as [(Hl & Hh & Hf)|[(Hl & Hh & Hf)|(Hf & m & M & Hl & Hh)]];
    rewrite Hf; unfold scan_shape; cbn [low high first].
  - right. left. repeat split.
  - right. left. rewrite Hl, Hh. repeat split.
  - right. right. rewrite Hl, Hh. split; [reflexivity|]. now exists m, M.
  - right. right. split; [reflexivity|]. now exists a, b.
  - right. left. rewrite Hl, Hh. repeat split.
  - right. right. rewrite Hl, Hh. split; [reflexivity|].
    unfold js_gt, js_lt. cbn [toNumber].
    exists (if a <? m then a else m), (if M <? b then b else M).
    split; [now destruct (a <? m) | now destruct (M <? b)].
Qed.

Lemma rtpScan_shape (configs : list (string * IDenomConfig)) : scan_shape (rtpScan configs).
Proof.
  unfold rtpScan.
  assert (Hinit : scan_shape {| low := Null; high := Null; first := true |})
    by (left; repeat split).
  revert Hinit. generalize {| low := Null; high := Null; first := true |}.
  induction configs as [|entry configs IH]; intros acc Hacc; cbn; [exact Hacc|].
  apply IH. now apply rtpStep_shape.
Qed.

Section ObservableUpdates.
Context {host : Host}.

Lemma updateVersion_run (g : GameSetup) :
  exists g', updateVersion g = (Ret tt, g', [])
    /\ only_observables g g'
    /\ rtpDisplayObservable g' = rtpDisplayObservable g
    /\ versionObservable g'
       = match versionObservable g with Some _ => Some (Version g) | None => None end.
Proof.
  unfold updateVersion. rewrite bind_get.
  destruct (versionObservable g) eqn:Hv.
  - eexists. split; [reflexivity|]. repeat split.
  - exists g. split; [reflexivity|]. split; [apply only_observables_refl|].
    split; [reflexivity | exact Hv].
Qed.

Lemma updateAutoComplete_run (g : GameSetup) :
  exists g', updateAutoComplete g = (Ret tt, g', [])
    /\ only_observables g g'
    /\ rtpDisplayObservable g' = rtpDisplayObservable g
    /\ versionObservable g' = versionObservable g.
Proof.
  unfold updateAutoComplete. rewrite bind_get.
  assert (Hsame : exists g', ret tt g = (Ret tt, g', [])
                    /\ only_observables g g'
                    /\ rtpDisplayObservable g' = rtpDisplayObservable g
                    /\ versionObservable g' = versionObservable g).
  { exists g. split; [reflexivity|]. split; [apply only_observables_refl|].
    split; reflexivity. }
  destruct (autoCompleteObservable g); [|destruct (_rgsConfig g); exact Hsame].
  destruct (_rgsConfig g) as [r|]; [|exact Hsame].
  destruct (settings r) as [s|]; [|exact Hsame].
  destruct (juris s) as [j|]; [|exact Hsame].
  cbv zeta.
  destruct (autoCompleteDayFreq j =? autoCompleteDayMax j);
    (eexists; split; [reflexivity|]; repeat split).
Qed.

Lemma updateRtpDisplay_run (g : GameSetup) :
  exists g' t, updateRtpDisplay g = (Ret tt, g', t)
    /\ only_observables g g'
    /\ versionObservable g' = versionObservable g
    /\ (t = [] \/ t = [LogInfo noRtpMessage]).
Proof.
  unfold updateRtpDisplay. rewrite bind_get.
  assert (Hsame : exists g' t, ret tt g = (Ret tt, g', t)
                    /\ only_observables g g'
                    /\ versionObservable g' = versionObservable g
                    /\ (t = [] \/ t = [LogInfo noRtpMessage])).
  { exists g, []. split; [reflexivity|]. split; [apply only_observables_refl|].
    split; [reflexivity | now left]. }
  destruct (rtpDisplayObservable g); [|destruct (DenomConfigs g); exact Hsame].
  destruct (DenomConfigs g) as [configs|]; [|exact Hsame].
  cbv zeta.
  destruct (rtpScan_shape configs)
    as [(Hl & Hh & _)|[(Hl & Hh & _)|(_ & m & M & Hl & Hh)]]; rewrite Hl, ?Hh.
  - eexists _, _. split; [reflexivity|]. repeat split. now right.
  - eexists _, _. split; [reflexivity|]. repeat split. now right.
  - rewrite !scale100_Val.
    unfold bind, lift, modify, rtpText, js_strict_neq.
    destruct (negb (Qeq_bool (scaled m) (scaled M)));
      (eexists _, _; split; [reflexivity|]; repeat split; now left).
Qed.

(** The first two updates return silently, so [updateObservables] is the
    RTP update run on the component they leave. *)
Lemma updateObservables_pre (g : GameSetup) :
  exists g1, only_observables g g1
    /\ rtpDisplayObservable g1 = rtpDisplayObservable g
    /\ versionObservable g1
       = match versionObservable g with Some _ => Some (Version g) | None => None end
    /\ updateObservables g = updateRtpDisplay g1.
Proof.
  destruct (updateVersion_run g) as (g1 & H1 & Ho1 & Hr1 & Hv1).
  destruct (updateAutoComplete_run g1) as (g2 & H2 & Ho2 & Hr2 & Hv2).
  exists g2. split; [now apply (only_observables_trans g g1 g2)|].
  split; [congruence|]. split; [congruence|].
  unfold updateObservables, bind. rewrite H1, H2.
  now destruct (updateRtpDisplay g2) as [[o g3] t].
Qed.

Lemma updateObservables_run (g : GameSetup) :
  exists g' t, updateObservables g = (Ret tt, g', t)
    /\ only_observables g g'
    /\ versionObservable g'
       = match versionObservable g with Some _ => Some (Version g) | None => None end
    /\ (t = [] \/ t = [LogInfo noRtpMessage]).
Proof.
  destruct (updateObservables_pre g) as (g1 & Ho1 & _ & Hv1 & Heq).
  destruct (updateRtpDisplay_run g1) as (g' & t & Hrun & Ho & Hv & Ht).
  exists g', t. rewrite Heq. split; [exact Hrun|].
  split; [now apply (only_observables_trans g g1 g')|].
  split; [congruence | exact Ht].
Qed.

(** X12: [updateObservables] returns normally on every component, changes
    nothing but the observables, and logs at most the missing-RTP
    diagnostic. *)
Theorem updateObservables_only_updates_observables (g : GameSetup) :
  outcome_of (updateObservables g) = Ret tt
  /\ only_observables g (state_of (updateObservables g))
  /\ (trace_of (updateObservables g) = []
      \/ trace_of (updateObservables g) = [LogInfo noRtpMessage]).
Proof.
  destruct (updateObservables_run g) as (g' & t & Hrun & Ho & _ & Ht).
  rewrite Hrun. repeat split; try apply Ho. exact Ht.
Qed.
End ObservableUpdates.

(** ** Receipt of an accepted setup result *)

Lemma denomConfigs_withDisplayOptions (defaults : DisplayOptions) (r : ISetupResult) :
  denomConfigs (withDisplayOptions defaults r) = denomConfigs r.
Proof.
  unfold withDisplayOptions.
  destruct (settings r) as [s|]; [|reflexivity].
  now destruct (uiDisplayOptions s).
Qed.

Lemma platformBetOption_withDisplayOptions (defaults : DisplayOptions) (r : ISetupResult) :
  platformBetOption (withDisplayOptions defaults r) = platformBetOption r.
Proof.
  unfold withDisplayOptions.
  destruct (settings r) as [s|]; [|reflexivity].
  now destruct (uiDisplayOptions s).
Qed.

Section AcceptedReceipt.
Context {host : Host}.

Lemma forEachHandler_run (handlers : list Handler) (g : GameSetup) :
  forEachHandler handlers g = (Ret tt, g, map HandlerInvoked handlers).
Proof.
  induction handlers as [|h rest IH]; [reflexivity|].
  cbn [forEachHandler map].
  apply (bind_seq _ _ g g g tt (Ret tt) [HandlerInvoked h] (map HandlerInvoked rest));
    [reflexivity | exact IH].
Qed.

Lemma when_emit_run (b : bool) (e : Event) (g : GameSetup) :
  when b (emit e) g = (Ret tt, g, if b then [e] else []).
Proof. now destruct b. Qed.

Lemma notifyAndComplete_run (g g3 : GameSetup) (t : list Event) :
  updateObservables g = (Ret tt, g3, t) ->
  notifyAndComplete g
  = (Ret tt, set_CLog_Debug (IsPrizeForceEnabled g3) g3,
     map HandlerInvoked (_onSetupCompleteHandlers g)
     ++ (if _localRef g then [LocalOnChanged] else [])
     ++ t ++ [CompleteState (_setupOnState g3)]).
Proof.
  intros Hobs. unfold notifyAndComplete. rewrite bind_get.
  eapply bind_seq; [apply forEachHandler_run|].
  eapply bind_seq; [apply when_emit_run|].
  eapply bind_seq; [exact Hobs|].
  rewrite bind_get. reflexivity.
Qed.

Lemma fillDisplayOptions_run (g : GameSetup) (r : ISetupResult) (s : ISettings) :
  _rgsConfig g = Some r -> settings r = Some s ->
  fillDisplayOptions g
  = (Ret tt,
     set_rgsConfig (Some (withDisplayOptions (displayOptions (_clientDefaults g)) r)) g, []).
Proof.
  intros Hr Hs. unfold fillDisplayOptions, withDisplayOptions.
  rewrite bind_get, Hr, Hs.
  destruct (uiDisplayOptions s); [|reflexivity].
  unfold ret. rewrite <- Hr. now destruct g.
Qed.

(** The whole run of the handler on a result with [denomConfigs] and
    [settings], in terms of the run of [updateObservables] on the component
    holding the accepted result. *)
Lemma setupReceivedHandler_success (result : ISetupResult) (g g3 : GameSetup)
    (d : list (string * IDenomConfig)) (s : ISettings) (t : list Event) :
  denomConfigs result = Some d -> settings result = Some s ->
  updateObservables
    (set_rgsConfig
       (Some (withDisplayOptions (displayOptions (_clientDefaults g)) (normalized result))) g)
  = (Ret tt, g3, t) ->
  setupReceivedHandler (Some result) g
  = (Ret tt, set_CLog_Debug (IsPrizeForceEnabled g3) g3,
     parseTrace result
     ++ map HandlerInvoked (_onSetupCompleteHandlers g)
     ++ (if _localRef g then [LocalOnChanged] else [])
     ++ t ++ [CompleteState (_setupOnState g)]).
Proof.
  intros Hd Hs Hobs.
  rewrite (setupReceivedHandler_valid result g d Hd). cbv zeta.
  set (g1 := set_rgsConfig (Some (normalized result)) g).
  assert (Hfill : fillDisplayOptions g1
                  = (Ret tt,
                     set_rgsConfig
                       (Some (withDisplayOptions (displayOptions (_clientDefaults g))
                                (normalized result))) g, [])).
  { rewrite (fillDisplayOptions_run g1 (normalized result) s eq_refl Hs). reflexivity. }
  destruct (updateObservables_run
              (set_rgsConfig
                 (Some (withDisplayOptions (displayOptions (_clientDefaults g))
                          (normalized result))) g))
    as (g3' & t' & Hrun & Honly & _).
  rewrite Hobs in Hrun. injection Hrun as <- <-.
  assert (Hstate : _setupOnState g3 = _setupOnState g) by apply Honly.
  rewrite (bind_seq _ _ _ _ _ _ _ _ _ Hfill (notifyAndComplete_run _ _ _ Hobs)).
  unfold outcome_of, state_of, trace_of. cbn [fst snd app _onSetupCompleteHandlers
    set_rgsConfig _localRef].
  now rewrite Hstate.
Qed.

(** X13: with [denomConfigs] and [settings] present the handler returns
    normally; after the bet-option log it invokes every registered listener
    once, in registration order, and the completion signal for the trigger
    state is the last event; in between only the localization hook and the
    missing-RTP diagnostic can occur. The listener list is untouched and the
    process-wide debug flag equals [IsPrizeForceEnabled]. *)
Theorem accepted_receipt_notifies_in_order (result : ISetupResult) (g : GameSetup)
    (d : list (string * IDenomConfig)) (s : ISettings) :
  denomConfigs result = Some d -> settings result = Some s ->
  exists g' mid,
    setupReceivedHandler (Some result) g
    = (Ret tt, g',
       parseTrace result ++ map HandlerInvoked (_onSetupCompleteHandlers g)
       ++ mid ++ [CompleteState (_setupOnState g)])
    /\ (forall e, In e mid -> e = LocalOnChanged \/ e = LogInfo noRtpMessage)
    /\ _onSetupCompleteHandlers g' = _onSetupCompleteHandlers g
    /\ CLog_Debug g' = IsPrizeForceEnabled g'.
Proof.
  intros Hd Hs.
  destruct (updateObservables_run
              (set_rgsConfig
                 (Some (withDisplayOptions (displayOptions (_clientDefaults g))
                          (normalized result))) g))
    as (g3 & t & Hrun & Honly & _ & Ht).
  exists (set_CLog_Debug (IsPrizeForceEnabled g3) g3),
         ((if _localRef g then [LocalOnChanged] else []) ++ t).
  split; [|split; [|split]].
  - rewrite (setupReceivedHandler_success result g g3 d s t Hd Hs Hrun).
    now rewrite <- (app_assoc (if _localRef g then _ else _) t).
  - intros e He. apply in_app_or in He. destruct He as [He|He].
    + destruct (_localRef g); [|destruct He]. destruct He as [<-|[]]. now left.
    + destruct Ht as [-> | ->]; [destruct He|]. destruct He as [<-|[]]. now right.
  - cbn. apply Honly.
  - reflexivity.
Qed.

(** X14: the handler raises exactly on the results that have [denomConfigs]
    and no [settings]; on every other result, the null one included, it
    returns normally. *)
Theorem receipt_raises_only_without_settings (result : ISetupResult) (g : GameSetup) :
  setupReceivedHandler None g = (Ret tt, g, [])
  /\ ((exists e, outcome_of (setupReceivedHandler (Some result) g) = Throw e)
      <-> (denomConfigs result <> None /\ settings result = None)).
Proof.
  split; [reflexivity|]. split.
  - intros [e He].
    destruct (denomConfigs result) as [d|] eqn:Hd.
    + split; [discriminate|].
      destruct (settings result) as [s|] eqn:Hs; [|reflexivity].
      destruct (updateObservables_run
                  (set_rgsConfig
                     (Some (withDisplayOptions (displayOptions (_clientDefaults g))
                              (normalized result))) g))
        as (g3 & t & Hrun & _).
      rewrite (setupReceivedHandler_success result g g3 d s t Hd Hs Hrun) in He.
      discriminate He.
    + rewrite (setupReceivedHandler_aborts result g Hd) in He. discriminate He.
  - intros [Hd Hs].
    destruct (denomConfigs result) as [d|] eqn:Hd'; [|contradiction].
    exists (TypeError "settings is undefined").
    now rewrite (setupReceivedHandler_raises_without_settings result g d Hd' Hs).
Qed.
End AcceptedReceipt.

Lemma accepted_receipt_notifies_in_order_witness :
  let result := mkSetup (Some sampleSettings) (Some [("1", mkDenom (Some [9588]))]) None in
  let g := state_of (OnSetupReceived 2%nat
             (state_of (OnSetupReceived 1%nat (loaded sampleLaunch)))) in
  exists g' mid,
    setupReceivedHandler (host := sampleHost) (Some result) g
    = (Ret tt, g', [HandlerInvoked 1%nat; HandlerInvoked 2%nat] ++ mid ++ [CompleteState 0%nat]).
Proof.
  intros result g.
  destruct (accepted_receipt_notifies_in_order (host := sampleHost) result g
              [("1", mkDenom (Some [9588]))] sampleSettings eq_refl eq_refl)
    as (g' & mid & H & _).
  exists g', mid. exact H.
Defined.

Lemma receipt_raises_only_without_settings_witness :
  let result := mkSetup None (Some []) None in
  exists e, outcome_of (setupReceivedHandler (host := sampleHost) (Some result)
                          (loaded sampleLaunch)) = Throw e.
Proof.
  intro result.
  apply (proj2 (proj2 (receipt_raises_only_without_settings (host := sampleHost) result
                         (loaded sampleLaunch)))).
  split; [discriminate | reflexivity].
Defined.

(** ** What an accepted or rejected result leaves behind *)

Section AfterReceipt.
Context {host : Host}.

Lemma rgsConfig_after_bind {A B} (m : M A) (k : A -> M B) (g : GameSetup) :
  (forall a, keeps_rgsConfig (k a)) ->
  _rgsConfig (state_of (bind m k g)) = _rgsConfig (state_of (m g)).
Proof.
  intros Hk. unfold bind, state_of.
  destruct (m g) as [[[a|e] g1] t1]; [|reflexivity].
  specialize (Hk a g1). unfold state_of in Hk.
  now destruct (k a g1) as [[o g2] t2].
Qed.

(** Whatever the handler does with a non-null result, the component it
    leaves holds that result with its bet option normalised. *)
Lemma betOption_after_receipt (result : ISetupResult) (g : GameSetup) :
  exists r', _rgsConfig (state_of (setupReceivedHandler (Some result) g)) = Some r'
    /\ platformBetOption r' = normalizedBetOption result.
Proof.
  destruct (denomConfigs result) as [d|] eqn:Hd.
  - rewrite (setupReceivedHandler_valid result g d Hd). cbv zeta.
    unfold state_of at 1. cbn [fst snd].
    rewrite rgsConfig_after_bind by (intros _; apply keeps_notifyAndComplete).
    destruct (settings result) as [s|] eqn:Hs.
    + rewrite (fillDisplayOptions_run (set_rgsConfig (Some (normalized result)) g)
                 (normalized result) s eq_refl Hs).
      eexists. split; [reflexivity|].
      now rewrite platformBetOption_withDisplayOptions.
    + unfold fillDisplayOptions. rewrite bind_get. cbn. rewrite Hs.
      eexists. split; reflexivity.
  - rewrite (setupReceivedHandler_aborts result g Hd).
    eexists. split; reflexivity.
Qed.

(** X15: after the handler has run on a non-null result, accepted or not,
    [BetScalers] and [DefaultBetScale] answer from the decoded bet option
    when the result carried an encoded string that decodes to a structure,
    from the bet option of the most recent round when the result carried
    none, and from the structure itself when it carried one. *)
Theorem bet_scalers_after_receipt (result : ISetupResult) (g : GameSetup)
    (v : IPlatformBetOption) :
  (platformBetOption result = BetOptionValue v
   \/ (exists s, platformBetOption result = BetOptionString s
                 /\ JSON_parse s = inl (BetOptionValue v))
   \/ (exists e rest, platformBetOption result = BetOptionAbsent
                      /\ roundStates result = Some (e :: rest)
                      /\ ps_platformBetOption e = BetOptionValue v)) ->
  BetScalers (state_of (setupReceivedHandler (Some result) g)) = Val (bo_list v)
  /\ DefaultBetScale (state_of (setupReceivedHandler (Some result) g)) = Val (defaultMult v).
Proof.
  intros Hcases.
  destruct (betOption_after_receipt result g) as (r' & Hr' & Hopt).
  assert (Hnorm : normalizedBetOption result = BetOptionValue v).
  { unfold normalizedBetOption.
    destruct Hcases as [H|[(s & H & Hparse)|(e & rest & H & Hrounds & He)]]; rewrite H.
    - reflexivity.
    - now rewrite Hparse.
    - now rewrite Hrounds. }
  unfold BetScalers, DefaultBetScale. rewrite Hr', Hopt, Hnorm. split; reflexivity.
Qed.

(** X16: whenever the handler returns normally on a result with
    [denomConfigs], the stored settings and their display options are
    present, so [Settings], [HasLobbyURL], [RecallHistory] and
    [UseLocalTimeZone], which read [settings] unguarded, return;
    [RecallHistory] answers with the history of the [recall] member of the
    display options, or with the default of a fresh [RecallOptions] when
    that member is absent. *)
Theorem accepted_receipt_has_display_options (result : ISetupResult) (g : GameSetup)
    (d : list (string * IDenomConfig)) :
  denomConfigs result = Some d ->
  outcome_of (setupReceivedHandler (Some result) g) = Ret tt ->
  exists s' ui,
    Settings (state_of (setupReceivedHandler (Some result) g)) = Ret (Some s')
    /\ uiDisplayOptions s' = Some ui
    /\ (exists b, HasLobbyURL (state_of (setupReceivedHandler (Some result) g)) = Ret b)
    /\ RecallHistory (state_of (setupReceivedHandler (Some result) g))
       = Ret (match do_recall ui with
              | Some options => ro_history options
              | None => ro_history new_RecallOptions
              end)
    /\ (exists b, UseLocalTimeZone (state_of (setupReceivedHandler (Some result) g)) = Ret b).
Proof.
  intros Hd Hret.
  destruct (settings result) as [s|] eqn:Hs.
  - destruct (uiDisplayOptions_present_after_receipt result g d s Hd Hs)
      as (r' & s' & Hr' & Hs' & Hui).
    exists s'. eexists. unfold Settings, HasLobbyURL, RecallHistory, UseLocalTimeZone.
    rewrite Hr', Hs', Hui.
    split; [reflexivity|]. split; [reflexivity|]. split; [|split].
    + destruct (match _clientConfig _ with
                | Some c => truthy_string (lobbyUrl c)
                | None => false
                end); [now eexists|].
      destruct (truthy_string (s_lobbyUrl s')); now eexists.
    + now destruct (do_recall _).
    + destruct (juris s') as [j|]; [|now eexists].
      destruct (useLocalTimeZone j); now eexists.
  - rewrite (setupReceivedHandler_raises_without_settings result g d Hd Hs) in Hret.
    discriminate Hret.
Qed.

(** X17: when an accepted result defines RTP values, none of its RTP arrays
    is empty and the RTP observable is attached, the handler leaves the
    observable showing the least and the greatest defined value, as one
    percentage when they are equal and as a range otherwise. *)
Theorem rtp_display_after_receipt (result : ISetupResult) (g : GameSetup)
    (configs : list (string * IDenomConfig)) (s : ISettings) (o : Observable) (m M : Z) :
  denomConfigs result = Some configs -> settings result = Some s ->
  rtpDisplayObservable g = Some o ->
  Forall (fun entry => rtp (snd entry) <> Some []) configs ->
  is_min m (definedValues configs) -> is_max M (definedValues configs) ->
  rtpDisplayObservable (state_of (setupReceivedHandler (Some result) g))
  = Some (Str (rtpDisplayText (_localRef g) m M)).
Proof.
  intros Hd Hs Ho Hall Hm HM.
  set (g2 := set_rgsConfig
               (Some (withDisplayOptions (displayOptions (_clientDefaults g))
                        (normalized result))) g).
  destruct (updateObservables_pre g2) as (g1 & Honly & Hobs & _ & Heq).
  assert (Hdenoms : DenomConfigs g1 = Some configs).
  { unfold DenomConfigs.
    replace (_rgsConfig g1) with (_rgsConfig g2) by (symmetry; apply Honly).
    cbn. now rewrite denomConfigs_withDisplayOptions. }
  assert (Hlocal : _localRef g1 = _localRef g) by apply Honly.
  assert (Ho1 : rtpDisplayObservable g1 = Some o) by (rewrite Hobs; exact Ho).
  pose proof (updateRtpDisplay_range g1 o configs m M Ho1 Hdenoms Hall Hm HM) as Hrun.
  rewrite <- Heq, Hlocal in Hrun.
  rewrite (setupReceivedHandler_success result g _ configs s _ Hd Hs Hrun).
  reflexivity.
Qed.
End AfterReceipt.

Lemma bet_scalers_after_receipt_witness :
  let result :=
    {| settings := None; denomConfigs := None; betConfigs := None;
       roundStates := None; previousRoundState := None;
       activeDenom := 5; defaultBet := None; time := 1800000000;
       rgsTzOffset := 0; platformBetOption := BetOptionString "{bets}"; sr_version := 2 |} in
  BetScalers (loaded sampleLaunch) = Null
  /\ BetScalers (state_of (setupReceivedHandler (host := decodingHost) (Some result)
                             (loaded sampleLaunch))) = Val [1; 2; 5]
  /\ DefaultBetScale (state_of (setupReceivedHandler (host := decodingHost) (Some result)
                                  (loaded sampleLaunch))) = Val 2.
Proof.
  intro result. split; [reflexivity|].
  apply (bet_scalers_after_receipt (host := decodingHost) result (loaded sampleLaunch)
           sampleBetOption).
  right. left. exists "{bets}". split; reflexivity.
Defined.

Lemma accepted_receipt_has_display_options_witness :
  let result := mkSetup (Some sampleSettings) (Some []) None in
  exists n, RecallHistory (state_of (setupReceivedHandler (host := sampleHost) (Some result)
                                       (loaded sampleLaunch))) = Ret n.
Proof.
  intro result.
  destruct (accepted_receipt_has_display_options (host := sampleHost) result
              (loaded sampleLaunch) [] eq_refl eq_refl)
    as (s' & ui & _ & _ & _ & H & _).
  eexists. exact H.
Defined.

Lemma rtp_display_after_receipt_witness :
  let configs := [("1", mkDenom (Some [9588; 9401])); ("5", mkDenom None);
                  ("25", mkDenom (Some [9650]))] in
  let result := mkSetup (Some sampleSettings) (Some configs) None in
  rtpDisplayObservable (state_of (setupReceivedHandler (host := sampleHost) (Some result)
                                    (loaded sampleLaunch)))
  = Some (Str "RTP 94.01% - 96.50%").
Proof.
  intros configs result.
  apply (rtp_display_after_receipt (host := sampleHost) result (loaded sampleLaunch)
           configs sampleSettings StrNull 9401 9650); try reflexivity.
  - repeat constructor; discriminate.
  - split; [cbn; tauto | repeat constructor; lia].
  - split; [cbn; tauto | repeat constructor; lia].
Defined.

(** ** Loading *)

Section Loading.
Context {host : Host}.

(** The launch configuration [onLoad] installs: the injected one, or the
    editor defaults when none was injected. *)
Lemma onLoad_unfold (g : GameSetup) :
  onLoad g
  = (let c := match window_clientConfig with
              | Some c => c
              | None => asClientConfig (_clientDefaults g)
              end in
     let run := updateObservables (set_clientConfig (Some c) g) in
     (outcome_of run, state_of run,
      (match window_clientConfig with
       | Some _ => []
       | None => if CC_DEBUG then [] else [LogError "No client config present."]
       end) ++ trace_of run)).
Proof.
  unfold onLoad, bind, modify, get, when, emit, ret, outcome_of, state_of, trace_of.
  cbn -[updateObservables].
  destruct window_clientConfig as [c|]; cbn -[updateObservables].
  - now destruct (updateObservables _) as [[o g'] t].
  - destruct CC_DEBUG; cbn -[updateObservables];
      now destruct (updateObservables _) as [[o g'] t].
Qed.

(** X18: [onLoad] returns normally and leaves a launch configuration in
    place, the injected one or else the editor defaults, so [Jurisdiction]
    returns afterwards; the setup result and the listeners are untouched, an
    attached version observable shows the launch version, and the missing
    configuration is reported exactly when none was injected outside a debug
    build. *)
Theorem onLoad_installs_launch_config (g : GameSetup) :
  exists c, _clientConfig (state_of (onLoad g)) = Some c
    /\ c = match window_clientConfig with
           | Some injected => injected
           | None => asClientConfig (_clientDefaults g)
           end
    /\ outcome_of (onLoad g) = Ret tt
    /\ Jurisdiction (state_of (onLoad g)) = Ret (jurisdiction c)
    /\ _rgsConfig (state_of (onLoad g)) = _rgsConfig g
    /\ _onSetupCompleteHandlers (state_of (onLoad g)) = _onSetupCompleteHandlers g
    /\ (versionObservable g <> None ->
        versionObservable (state_of (onLoad g)) = Some (Str (version c)))
    /\ (In (LogError "No client config present.") (trace_of (onLoad g))
        <-> window_clientConfig = None /\ CC_DEBUG = false).
Proof.
  rewrite onLoad_unfold. cbv zeta.
  set (c := match window_clientConfig with
            | Some injected => injected
            | None => asClientConfig (_clientDefaults g)
            end).
  destruct (updateObservables_run (set_clientConfig (Some c) g))
    as (g' & t & Hrun & Honly & Hversion & Ht).
  rewrite Hrun. unfold outcome_of, state_of, trace_of. cbn [fst snd].
  destruct Honly as (_ & _ & _ & _ & Hc & Hr & Hh & _).
  exists c. split; [exact Hc|]. split; [reflexivity|]. split; [reflexivity|].
  split; [unfold Jurisdiction; now rewrite Hc|].
  split; [exact Hr|]. split; [exact Hh|]. split.
  - intros Hv. rewrite Hversion. cbn [versionObservable set_clientConfig].
    destruct (versionObservable g); [reflexivity | contradiction].
  - split.
    + intros Hin. apply in_app_or in Hin. destruct Hin as [Hin|Hin].
      * destruct window_clientConfig; [destruct Hin|].
        destruct CC_DEBUG; [destruct Hin | now split].
      * destruct Ht as [-> | ->]; [destruct Hin|].
        destruct Hin as [Hin|[]]. discriminate Hin.
    + intros [Hw Hdebug]. rewrite Hw, Hdebug. now left.
Qed.
End Loading.

Lemma onLoad_installs_launch_config_witness :
  _clientConfig (state_of (onLoad (host := decodingHost) (new_GameSetup true false)))
  = Some sampleLaunch
  /\ versionObservable (state_of (onLoad (host := decodingHost) (new_GameSetup true false)))
     = Some (Str "1.2.3")
  /\ CurrencyCode (state_of (onLoad (host := sampleHost) (new_GameSetup true false))) = "USD".
Proof.
  destruct (onLoad_installs_launch_config (host := decodingHost) (new_GameSetup true false))
    as (c & Hc & -> & _ & _ & _ & _ & Hv & _).
  split; [exact Hc|]. split; [|reflexivity].
  apply Hv. discriminate.
Defined.

(** ** Order of the denom configs *)

Lemma definedValues_nil (configs : list (string * IDenomConfig)) :
  Forall (fun entry => rtp (snd entry) <> Some []) configs ->
  definedValues configs = [] ->
  Forall (fun entry => rtp (snd entry) = None) configs.
Proof.
  induction configs as [|entry configs IH]; intros Hall Hnil; [constructor|].
  inversion Hall as [|? ? Hentry Hrest]; subst.
  cbn in Hnil. apply app_eq_nil in Hnil. destruct Hnil as [Hvals Hnil].
  constructor; [|now apply IH].
  destruct (rtp (snd entry)) as [values|]; [|reflexivity].
  subst values. contradiction.
Qed.

(** X19: when no defined RTP array is empty, the scan does not depend on the
    order in which the denom configs are visited. *)
Theorem rtpScan_order_independent (configs configs' : list (string * IDenomConfig)) :
  Permutation configs configs' ->
  Forall (fun entry => rtp (snd entry) <> Some []) configs ->
  rtpScan configs = rtpScan configs'.
Proof.
  intros Hperm Hall.
  assert (Hall' : Forall (fun entry => rtp (snd entry) <> Some []) configs')
    by now apply (Permutation_Forall Hperm).
  assert (Hvals : Permutation (definedValues configs) (definedValues configs'))
    by now apply Permutation_flat_map.
  assert (Hinit : scan_inv {| low := Null; high := Null; first := true |} [])
    by (left; split; reflexivity).
  pose proof (rtpScan_inv configs _ [] Hall Hinit) as H.
  pose proof (rtpScan_inv configs' _ [] Hall' Hinit) as H'.
  cbn [app] in H, H'. fold (rtpScan configs) in H. fold (rtpScan configs') in H'.
  destruct H as [[_ Hnil]|(Hf & m & M & Hl & Hh & Hm & HM)].
  - assert (Hnil' : definedValues configs' = []).
    { rewrite Hnil in Hvals. now apply Permutation_nil in Hvals. }
    rewrite (rtpScan_undefined configs (definedValues_nil configs Hall Hnil)).
    now rewrite (rtpScan_undefined configs' (definedValues_nil configs' Hall' Hnil')).
  - destruct H' as [[_ Hnil']|(Hf' & m' & M' & Hl' & Hh' & Hm' & HM')].
    + rewrite Hnil' in Hvals. apply Permutation_sym, Permutation_nil in Hvals.
      destruct Hm as [Hin _]. rewrite Hvals in Hin. destruct Hin.
    + apply (is_min_perm _ _ _ Hvals) in Hm. apply (is_max_perm _ _ _ Hvals) in HM.
      rewrite (is_min_unique _ _ _ Hm Hm') in Hl.
      rewrite (is_max_unique _ _ _ HM HM') in Hh.
      destruct (rtpScan configs), (rtpScan configs'). cbn in *. congruence.
Qed.

Lemma rtpScan_order_independent_witness :
  rtpScan [("1", mkDenom (Some [9588; 9401])); ("25", mkDenom (Some [9650]))]
  = rtpScan [("25", mkDenom (Some [9650])); ("1", mkDenom (Some [9588; 9401]))].
Proof.
  apply rtpScan_order_independent.
  - apply perm_swap.
  - repeat constructor; discriminate.
Defined.

(** ** What the receipt never touches *)

(** X20: whatever the result and whatever the outcome, the handler changes
    neither the launch configuration, nor the editor defaults, nor the
    listener list, nor the trigger state. *)
Theorem receipt_keeps_launch_defaults_and_listeners {host : Host}
    (result : option ISetupResult) (g : GameSetup) :
  _clientConfig (state_of (setupReceivedHandler result g)) = _clientConfig g
  /\ _clientDefaults (state_of (setupReceivedHandler result g)) = _clientDefaults g
  /\ _onSetupCompleteHandlers (state_of (setupReceivedHandler result g))
     = _onSetupCompleteHandlers g
  /\ _setupOnState (state_of (setupReceivedHandler result g)) = _setupOnState g.
Proof.
  destruct result as [result|]; [|repeat split].
  destruct (denomConfigs result) as [d|] eqn:Hd.
  - destruct (settings result) as [s|] eqn:Hs.
    + destruct (updateObservables_run
                  (set_rgsConfig
                     (Some (withDisplayOptions (displayOptions (_clientDefaults g))
                              (normalized result))) g))
        as (g3 & t & Hrun & Honly & _).
      rewrite (setupReceivedHandler_success result g g3 d s t Hd Hs Hrun).
      destruct Honly as (Hstate & Hdefaults & _ & _ & Hc & _ & Hh & _).
      unfold state_of. cbn [fst snd _clientConfig _clientDefaults
        _onSetupCompleteHandlers _setupOnState set_CLog_Debug].
      repeat split; assumption.
    + rewrite (setupReceivedHandler_raises_without_settings result g d Hd Hs).
      repeat split.
  - rewrite (setupReceivedHandler_aborts result g Hd). repeat split.
Qed.

(** ** The stored setup result *)

Lemma time_withDisplayOptions (defaults : DisplayOptions) (r : ISetupResult) :
  time (withDisplayOptions defaults r) = time r.
Proof.
  unfold withDisplayOptions.
  destruct (settings r) as [s|]; [|reflexivity].
  now destruct (uiDisplayOptions s).
Qed.

Section StoredResult.
Context {host : Host}.

(** The handler is the store and the normalisation, followed by the
    validation and what comes after it. *)
Lemma setupReceivedHandler_stores_first (result : ISetupResult) (g : GameSetup) :
  setupReceivedHandler (Some result) g
  = ((modify (set_rgsConfig (Some result)) ;; parsePlatformBetOptions result) ;;
     validateAndProceed) g.
Proof.
  unfold setupReceivedHandler, validateAndProceed.
  rewrite bind_assoc. reflexivity.
Qed.

(** The setup result the handler leaves in the component, for every
    non-null result and every outcome: the normalised result, with the
    display options filled in when the result passed the validation. *)
Lemma rgsConfig_after_receipt (result : ISetupResult) (g : GameSetup) :
  _rgsConfig (state_of (setupReceivedHandler (Some result) g))
  = Some (match denomConfigs result with
          | Some _ =>
              withDisplayOptions (displayOptions (_clientDefaults g)) (normalized result)
          | None => normalized result
          end).
Proof.
  destruct (denomConfigs result) as [d|] eqn:Hd.
  - rewrite (setupReceivedHandler_valid result g d Hd). cbv zeta.
    unfold state_of at 1. cbn [fst snd].
    rewrite rgsConfig_after_bind by (intros _; apply keeps_notifyAndComplete).
    destruct (settings result) as [s|] eqn:Hs.
    + now rewrite (fillDisplayOptions_run (set_rgsConfig (Some (normalized result)) g)
                     (normalized result) s eq_refl Hs).
    + unfold fillDisplayOptions, withDisplayOptions. rewrite bind_get. cbn.
      now rewrite Hs.
  - now rewrite (setupReceivedHandler_aborts result g Hd).
Qed.

(** C10: for every non-null setup result the handler begins by storing the
    result and normalising its bet option, which leaves the normalised
    result in [_rgsConfig], and only then validates [denomConfigs]. Whatever
    the validation says, the component the handler leaves holds the
    normalised payload (with display options filled in when it was
    accepted), so [ServerTime] and [DenomConfigs] answer from it. When the
    result has no [denomConfigs], the handler logs the error after the
    normalisation and leaves exactly the normalised payload, and
    [ServerTime], [Settings] and [DenomConfigs] answer from the rejected
    payload, whatever was stored before the call. *)
Theorem C10_invalid_payload_is_stored (result : ISetupResult) (g : GameSetup) :
  setupReceivedHandler (Some result) g
  = ((modify (set_rgsConfig (Some result)) ;; parsePlatformBetOptions result) ;;
     validateAndProceed) g
  /\ (modify (set_rgsConfig (Some result)) ;; parsePlatformBetOptions result) g
     = (Ret tt, set_rgsConfig (Some (normalized result)) g, parseTrace result)
  /\ _rgsConfig (state_of (setupReceivedHandler (Some result) g))
     = Some (match denomConfigs result with
             | Some _ =>
                 withDisplayOptions (displayOptions (_clientDefaults g)) (normalized result)
             | None => normalized result
             end)
  /\ ServerTime (state_of (setupReceivedHandler (Some result) g)) = time result
  /\ DenomConfigs (state_of (setupReceivedHandler (Some result) g)) = denomConfigs result
  /\ (denomConfigs result = None ->
        trace_of (setupReceivedHandler (Some result) g)
        = parseTrace result ++ [LogError invalidSetupMessage]
        /\ _rgsConfig (state_of (setupReceivedHandler (Some result) g))
           = Some (normalized result)
        /\ ServerTime (state_of (setupReceivedHandler (Some result) g)) = time result
        /\ Settings (state_of (setupReceivedHandler (Some result) g))
           = Ret (settings result)
        /\ DenomConfigs (state_of (setupReceivedHandler (Some result) g)) = None).
Proof.
  split; [apply setupReceivedHandler_stores_first|].
  split; [apply store_and_normalize|].
  split; [apply rgsConfig_after_receipt|].
  split; [|split].
  - unfold ServerTime. rewrite rgsConfig_after_receipt.
    destruct (denomConfigs result); [|reflexivity].
    now rewrite time_withDisplayOptions.
  - unfold DenomConfigs. rewrite rgsConfig_after_receipt.
    destruct (denomConfigs result) eqn:Hd; [|exact Hd].
    now rewrite denomConfigs_withDisplayOptions.
  - intros Hd. rewrite (setupReceivedHandler_aborts result g Hd).
    unfold state_of, trace_of, ServerTime, Settings, DenomConfigs. cbn.
    repeat split. exact Hd.
Qed.
End StoredResult.

Lemma C10_invalid_payload_is_stored_witness :
  let earlier := mkSetup (Some sampleSettings) (Some []) None in
  let result :=
    {| settings := None; denomConfigs := None; betConfigs := None;
       roundStates := None; previousRoundState := None;
       activeDenom := 5; defaultBet := None; time := 1800000000;
       rgsTzOffset := 0; platformBetOption := BetOptionString "{"; sr_version := 2 |} in
  let g := configured sampleLaunch earlier in
  ServerTime g = 1700000000
  /\ ServerTime (state_of (setupReceivedHandler (host := sampleHost) (Some result) g))
     = 1800000000
  /\ Settings (state_of (setupReceivedHandler (host := sampleHost) (Some result) g))
     = Ret None
  /\ DenomConfigs (state_of (setupReceivedHandler (host := sampleHost) (Some result) g))
     = None
  /\ trace_of (setupReceivedHandler (host := sampleHost) (Some result) g)
     = [LogError (parseErrorMessage "{" "Unexpected token"); LogError invalidSetupMessage].
Proof.
  intros earlier result g.
  destruct (C10_invalid_payload_is_stored (host := sampleHost) result g)
    as (_ & _ & _ & _ & _ & H).
  destruct (H eq_refl) as (Htrace & _ & Htime & Hsettings & Hdenoms).
  split; [reflexivity|]. split; [exact Htime|]. split; [exact Hsettings|].
  split; [exact Hdenoms | exact Htrace].
Defined.
